(** * caffe-menu: a shallow embedding of the menu application

    The first part embeds the code, module by module:
    - [Py]                 the Python string primitives the code calls;
    - [Dec]                finite [decimal.Decimal] values and their order;
    - [Validators]         the validators the field declarations name;
    - [Cache], [Orm]       the cache backend and the ORM calls;
    - [Models]             [menu/models.py];
    - [ContextProcessors]  [menu/context_processors.py];
    - [Views]              [menu/views.py];
    - [Admin]              [menu/admin.py];
    - [Text]               [slugify] on ASCII text, for the examples;
    - [Spec]               the wording of the specification where it is
                           compared with the code;
    - [Fixtures]           sample data.

    The second part holds the theorems: [LanguageUrls], [Translation],
    [HomePage], [SettingsCache], [Singleton], [Slug], [Validation].

    Framework behaviour (the ORM, the cache backend, model validation) is
    modelled only as far as the application code relies on it; each such
    definition says so. *)

From Stdlib Require Import QArith Qabs Ascii.
From Stdlib Require Import DecimalString DecimalN DecimalPos DecimalFacts.
From stdpp Require Import gmap strings list sorting.

Local Open Scope string_scope.

(** ** Python string primitives *)

Module Py.

Definition slash : ascii := "/"%char.
Definition hyphen : ascii := "-"%char.

(** [s.lstrip(c)] for a one-character argument: drop every leading [c]. *)
Fixpoint lstrip (c : ascii) (s : string) : string :=
  match s with
  | String a s' => if decide (a = c) then lstrip c s' else s
  | EmptyString => EmptyString
  end.

(** [s.rstrip(c)]: drop every trailing [c]. *)
Fixpoint rstrip (c : ascii) (s : string) : string :=
  match s with
  | String a s' =>
      match rstrip c s' with
      | EmptyString => if decide (a = c) then EmptyString else String a EmptyString
      | r => String a r
      end
  | EmptyString => EmptyString
  end.

(** A string that [lstrip] leaves alone. *)
Definition no_leading (c : ascii) (s : string) : Prop :=
  match s with String a _ => a ≠ c | EmptyString => True end.

(** [s.strip(c)]. *)
Definition strip (c : ascii) (s : string) : string := rstrip c (lstrip c s).

(** The text before the first [c], and the text after it when there is
    one ([str.partition] without the separator). *)
Fixpoint cut (c : ascii) (s : string) : string * option string :=
  match s with
  | String a s' =>
      if decide (a = c) then (EmptyString, Some s')
      else let '(h, t) := cut c s' in (String a h, t)
  | EmptyString => (EmptyString, None)
  end.

(** [s.split(c, 1)]: one or two pieces. *)
Definition split1 (c : ascii) (s : string) : list string :=
  let '(h, t) := cut c s in h :: option_list t.

(** [s.split(c)[0]]. *)
Definition split_head (c : ascii) (s : string) : string := (cut c s).1.

(** Truthiness of a [str]. *)
Definition truthy (s : string) : bool := bool_decide (s ≠ "").

(** [a or b] on strings. *)
Definition or_else (a b : string) : string := if truthy a then a else b.

End Py.

(** ** Finite [decimal.Decimal] values *)

Module Dec.

(** A finite decimal is [coefficient * 10 ^ exponent]; [Decimal("-1.00")]
    has coefficient [-100] and exponent [-2]. *)
Record Decimal := { coefficient : Z; exponent : Z }.

Global Instance Decimal_eq_dec : EqDecision Decimal.
Proof. solve_decision. Defined.

(** The coefficient once the exponent is lowered to [e]. *)
Definition scaled (e : Z) (d : Decimal) : Z :=
  (coefficient d * 10 ^ (exponent d - e))%Z.

(** Numeric comparison: both sides brought to the smaller exponent. *)
Definition compare (a b : Decimal) : comparison :=
  let e := Z.min (exponent a) (exponent b) in
  (scaled e a ?= scaled e b)%Z.

Definition ltb (a b : Decimal) : bool :=
  match compare a b with Lt => true | _ => false end.
Definition gtb (a b : Decimal) : bool := ltb b a.

(** The rational number a decimal denotes. *)
Definition value (d : Decimal) : Q :=
  if (0 <=? exponent d)%Z
  then inject_Z (coefficient d * 10 ^ exponent d)
  else Qmake (coefficient d) (Z.to_pos (10 ^ (- exponent d))).

(** Number of decimal digits of a coefficient, [len(digit_tuple)]. *)
Definition num_digits (z : Z) : Z :=
  match z with
  | Z0 => 1%Z
  | Zpos p | Zneg p => Z.of_nat (Corelib.Init.Decimal.nb_digits (Pos.to_uint p))
  end.

(** [Decimal("0.00")], [Decimal("0.0")] and [Decimal("5.0")]. *)
Definition d0_00 : Decimal := {| coefficient := 0; exponent := -2 |}.
Definition d0_0 : Decimal := {| coefficient := 0; exponent := -1 |}.
Definition d5_0 : Decimal := {| coefficient := 50; exponent := -1 |}.

End Dec.

(** ** django.core.validators and field cleaning *)

Module Validators.

Import Dec.

(** A validation error: the field it is attached to and its code. *)
Record ValidationError := { err_field : string; err_code : string }.

Global Instance ValidationError_eq_dec : EqDecision ValidationError.
Proof. solve_decision. Defined.

Inductive DecimalCheck :=
| MinValueValidator (limit : Decimal)
| MaxValueValidator (limit : Decimal)
| DecimalValidator (max_digits decimal_places : Z).

(** The code of the error a validator raises on [a], if it raises one.
    [MinValueValidator] rejects [a < limit], [MaxValueValidator] rejects
    [a > limit]; [DecimalValidator] counts digits as Django does. *)
Definition check_decimal (v : DecimalCheck) (a : Decimal) : option string :=
  match v with
  | MinValueValidator limit => if ltb a limit then Some "min_value" else None
  | MaxValueValidator limit => if gtb a limit then Some "max_value" else None
  | DecimalValidator max_digits decimal_places =>
      let len := num_digits (coefficient a) in
      let e := exponent a in
      let '(digits, decimals) :=
        if (0 <=? e)%Z
        then ((if (coefficient a =? 0)%Z then len else len + e)%Z, 0%Z)
        else if (len <? Z.abs e)%Z then (Z.abs e, Z.abs e)
        else (len, Z.abs e) in
      if (max_digits <? digits)%Z then Some "max_digits"
      else if (decimal_places <? decimals)%Z then Some "max_decimal_places"
      else if (max_digits - decimal_places <? digits - decimals)%Z
           then Some "max_whole_digits"
      else None
  end.

(** [Field.run_validators]: every validator is run and the errors are
    collected. *)
Definition run_validators (field : string) (vs : list DecimalCheck)
    (a : Decimal) : list ValidationError :=
  omap (λ v, (λ c, {| err_field := field; err_code := c |}) <$> check_decimal v a) vs.

(** A required text field with a [max_length]. *)
Definition clean_char (field : string) (blank : bool) (max_length : nat)
    (s : string) : list ValidationError :=
  if decide (s = "")
  then (if blank then [] else [{| err_field := field; err_code := "blank" |}])
  else if decide (max_length < String.length s)
       then [{| err_field := field; err_code := "max_length" |}]
       else [].

(** The errors of the range checks on [price] and [rating]. *)
Definition is_range_error (e : ValidationError) : Prop :=
  err_field e ∈ ["price"; "rating"] ∧ err_code e ∈ ["min_value"; "max_value"].

Global Instance is_range_error_dec e : Decision (is_range_error e).
Proof. unfold is_range_error. apply _. Defined.

End Validators.

(** ** The process-wide cache and the clock *)

Module Cache.

Section cache.
Context {V : Type}.

Record Entry := { value : V; expires_at : Z }.

(** [cache.get(key)]: [None] when the key is missing or has expired. *)
Definition get (now : Z) (key : string) (c : gmap string Entry) : option V :=
  match c !! key with
  | Some e => if (now <? expires_at e)%Z then Some (value e) else None
  | None => None
  end.

(** [cache.set(key, value, timeout)]. *)
Definition set (now : Z) (key : string) (v : V) (timeout : Z)
    (c : gmap string Entry) : gmap string Entry :=
  <[key := {| value := v; expires_at := (now + timeout)%Z |}]> c.

(** [cache.delete(key)]. *)
Definition delete (key : string) (c : gmap string Entry) : gmap string Entry :=
  base.delete key c.
End cache.

Global Arguments Entry : clear implicits.

End Cache.

(** ** The ORM, as far as the application uses it *)

Module Orm.

Inductive Outcome :=
| Saved
| Deleted
| IntegrityError (constraint : string)
| Rejected (errors : list Validators.ValidationError)
| ValueError.

Section table.
Context {A : Type} (pk : A → option Z).

Definition has_pk (k : Z) (r : A) : bool := bool_decide (pk r = Some k).

(** The key the database hands to a new row. *)
Definition next_pk (rows : list A) : Z := (1 + foldr Z.max 0 (omap pk rows))%Z.

(** [Model.save]: UPDATE the row that has this key, INSERT when there
    is none. *)
Definition write (k : Z) (row : A) (rows : list A) : list A :=
  if existsb (has_pk k) rows
  then (λ r, if has_pk k r then row else r) <$> rows
  else rows ++ [row].

(** [DELETE ... WHERE id = k]. *)
Definition remove (k : Z) (rows : list A) : list A :=
  filter (λ r, pk r ≠ Some k) rows.

(** [objects.first()] on a model without a default ordering: the row
    with the smallest key. *)
Definition first (rows : list A) : option A :=
  foldr (λ r acc,
           match acc with
           | Some r' => if decide (default 0 (pk r) ≤ default 0 (pk r'))%Z
                        then Some r else Some r'
           | None => Some r
           end) None rows.

(** [objects.exists()]. *)
Definition exists_ (rows : list A) : bool :=
  match rows with [] => false | _ :: _ => true end.
End table.

End Orm.

(** ** menu/models.py *)

Module Models.

(** Attribute values that [translate] can meet: text fields hold a [str]
    and may hold [None] on an instance built by hand. *)
Inductive PyVal := PyNone | PyStr (s : string).

Global Instance PyVal_eq_dec : EqDecision PyVal.
Proof. solve_decision. Defined.

Definition truthy (v : PyVal) : bool :=
  match v with PyStr s => Py.truthy s | PyNone => false end.

(** [a or b]. *)
Definition py_or (a b : PyVal) : PyVal := if truthy a then a else b.

(** [TranslatableFieldsMixin]: what the mixin needs from its host class is
    attribute lookup by name, [None] standing for a missing attribute. *)
Class TranslatableFieldsMixin (A : Type) := getattr : A → string → option PyVal.

(** An object given by its attribute dictionary. *)
Global Instance dict_translatable : TranslatableFieldsMixin (gmap string PyVal) :=
  λ self name, self !! name.

(** [translate(self, field_prefix)]; [active] is what
    [translation.get_language()] returns. *)
Definition translate `{TranslatableFieldsMixin A} (active : option string)
    (self : A) (field_prefix : string) : PyVal :=
  let lang := Py.split_head Py.hyphen (Py.or_else (default "" active) "en") in
  let preferred_field := field_prefix +:+ "_" +:+ lang in
  let fallback_field := field_prefix +:+ "_en" in
  py_or (default PyNone (getattr self preferred_field))
        (default (PyStr "") (getattr self fallback_field)).

Definition SITE_SETTINGS_CACHE_KEY : string := "menu.site_settings".

Module SiteSetting.

Record t := {
  pk : option Z;
  site_name_en : string;
  site_name_fa : string;
  site_logo : option string;
  site_favicon : option string;
  hero_headline_en : string;
  hero_headline_fa : string;
  hero_subtitle_en : string;
  hero_subtitle_fa : string;
  contact_email : string;
  contact_phone : string;
  contact_whatsapp : string;
  address_en : string;
  address_fa : string;
  opening_hours : string;
  footer_text_en : string;
  footer_text_fa : string;
  footer_links : list (gmap string string);
  social_links : gmap string string;
  seo_description_en : string;
  seo_description_fa : string;
}.

Global Instance t_eq_dec : EqDecision t.
Proof. solve_decision. Defined.

(** [SiteSetting(site_name_en=name)]: every other field takes the
    default its declaration gives it. *)
Definition init (name : string) : t := {|
  pk := None;
  site_name_en := name;
  site_name_fa := "";
  site_logo := None;
  site_favicon := None;
  hero_headline_en := "";
  hero_headline_fa := "";
  hero_subtitle_en := "";
  hero_subtitle_fa := "";
  contact_email := "";
  contact_phone := "";
  contact_whatsapp := "";
  address_en := "";
  address_fa := "";
  opening_hours := "08:00 - 23:00";
  footer_text_en := "";
  footer_text_fa := "";
  footer_links := [];
  social_links := ∅;
  seo_description_en := "";
  seo_description_fa := "";
|}.

Definition set_pk (k : Z) (s : t) : t := {|
  pk := Some k;
  site_name_en := site_name_en s;
  site_name_fa := site_name_fa s;
  site_logo := site_logo s;
  site_favicon := site_favicon s;
  hero_headline_en := hero_headline_en s;
  hero_headline_fa := hero_headline_fa s;
  hero_subtitle_en := hero_subtitle_en s;
  hero_subtitle_fa := hero_subtitle_fa s;
  contact_email := contact_email s;
  contact_phone := contact_phone s;
  contact_whatsapp := contact_whatsapp s;
  address_en := address_en s;
  address_fa := address_fa s;
  opening_hours := opening_hours s;
  footer_text_en := footer_text_en s;
  footer_text_fa := footer_text_fa s;
  footer_links := footer_links s;
  social_links := social_links s;
  seo_description_en := seo_description_en s;
  seo_description_fa := seo_description_fa s;
|}.

Global Instance translatable : TranslatableFieldsMixin t := λ self name,
  if decide (name = "site_name_en") then Some (PyStr (site_name_en self))
  else if decide (name = "site_name_fa") then Some (PyStr (site_name_fa self))
  else if decide (name = "hero_headline_en") then Some (PyStr (hero_headline_en self))
  else if decide (name = "hero_headline_fa") then Some (PyStr (hero_headline_fa self))
  else if decide (name = "hero_subtitle_en") then Some (PyStr (hero_subtitle_en self))
  else if decide (name = "hero_subtitle_fa") then Some (PyStr (hero_subtitle_fa self))
  else if decide (name = "address_en") then Some (PyStr (address_en self))
  else if decide (name = "address_fa") then Some (PyStr (address_fa self))
  else if decide (name = "footer_text_en") then Some (PyStr (footer_text_en self))
  else if decide (name = "footer_text_fa") then Some (PyStr (footer_text_fa self))
  else if decide (name = "seo_description_en") then Some (PyStr (seo_description_en self))
  else if decide (name = "seo_description_fa") then Some (PyStr (seo_description_fa self))
  else if decide (name = "contact_email") then Some (PyStr (contact_email self))
  else if decide (name = "contact_phone") then Some (PyStr (contact_phone self))
  else if decide (name = "contact_whatsapp") then Some (PyStr (contact_whatsapp self))
  else if decide (name = "opening_hours") then Some (PyStr (opening_hours self))
  else None.

Definition site_name (active : option string) (self : t) : PyVal :=
  py_or (translate active self "site_name") (PyStr (site_name_en self)).

Definition localized_value (active : option string) (self : t)
    (field_prefix : string) (fallback : PyVal) : PyVal :=
  py_or (translate active self field_prefix) fallback.

Definition hero_headline (active : option string) (self : t) : PyVal :=
  localized_value active self "hero_headline" (site_name active self).

Definition hero_subtitle (active : option string) (self : t) : PyVal :=
  localized_value active self "hero_subtitle" (PyStr "").

Definition address (active : option string) (self : t) : PyVal :=
  localized_value active self "address" (PyStr "").

Definition footer_text (active : option string) (self : t) : PyVal :=
  localized_value active self "footer_text" (PyStr "").

Definition seo_description (active : option string) (self : t) : PyVal :=
  localized_value active self "seo_description" (PyStr "").

End SiteSetting.

Module MenuCategory.

Record t := {
  pk : option Z;
  created_at : Z;
  updated_at : Z;
  title_en : string;
  title_fa : string;
  description_en : string;
  description_fa : string;
  cover_image : option string;
  display_order : N;
  is_active : bool;
}.

Global Instance t_eq_dec : EqDecision t.
Proof. solve_decision. Defined.

(** The row as [Model.save] writes it: [pk] assigned, [updated_at]
    refreshed ([auto_now]). *)
Definition stored (k now : Z) (c : t) : t := {|
  pk := Some k;
  created_at := created_at c;
  updated_at := now;
  title_en := title_en c;
  title_fa := title_fa c;
  description_en := description_en c;
  description_fa := description_fa c;
  cover_image := cover_image c;
  display_order := display_order c;
  is_active := is_active c;
|}.

Global Instance translatable : TranslatableFieldsMixin t := λ self name,
  if decide (name = "title_en") then Some (PyStr (title_en self))
  else if decide (name = "title_fa") then Some (PyStr (title_fa self))
  else if decide (name = "description_en") then Some (PyStr (description_en self))
  else if decide (name = "description_fa") then Some (PyStr (description_fa self))
  else None.

Definition title (active : option string) (self : t) : PyVal :=
  translate active self "title".

Definition description (active : option string) (self : t) : PyVal :=
  translate active self "description".

End MenuCategory.

Module MenuItem.

Record t := {
  pk : option Z;
  created_at : Z;
  updated_at : Z;
  category_id : Z;
  name_en : string;
  name_fa : string;
  slug : string;
  description_en : string;
  description_fa : string;
  price : Dec.Decimal;
  currency : string;
  image : option string;
  is_signature : bool;
  is_available : bool;
  calories : option Z;
  preparation_time : string;
  highlight_badge_en : string;
  highlight_badge_fa : string;
  rating : option Dec.Decimal;
}.

Global Instance t_eq_dec : EqDecision t.
Proof. solve_decision. Defined.

(** [self.slug = v]. *)
Definition set_slug (v : string) (i : t) : t := {|
  pk := pk i;
  created_at := created_at i;
  updated_at := updated_at i;
  category_id := category_id i;
  name_en := name_en i;
  name_fa := name_fa i;
  slug := v;
  description_en := description_en i;
  description_fa := description_fa i;
  price := price i;
  currency := currency i;
  image := image i;
  is_signature := is_signature i;
  is_available := is_available i;
  calories := calories i;
  preparation_time := preparation_time i;
  highlight_badge_en := highlight_badge_en i;
  highlight_badge_fa := highlight_badge_fa i;
  rating := rating i;
|}.

(** The row as [Model.save] writes it. *)
Definition stored (k now : Z) (i : t) : t := {|
  pk := Some k;
  created_at := created_at i;
  updated_at := now;
  category_id := category_id i;
  name_en := name_en i;
  name_fa := name_fa i;
  slug := slug i;
  description_en := description_en i;
  description_fa := description_fa i;
  price := price i;
  currency := currency i;
  image := image i;
  is_signature := is_signature i;
  is_available := is_available i;
  calories := calories i;
  preparation_time := preparation_time i;
  highlight_badge_en := highlight_badge_en i;
  highlight_badge_fa := highlight_badge_fa i;
  rating := rating i;
|}.

Global Instance translatable : TranslatableFieldsMixin t := λ self name,
  if decide (name = "name_en") then Some (PyStr (name_en self))
  else if decide (name = "name_fa") then Some (PyStr (name_fa self))
  else if decide (name = "description_en") then Some (PyStr (description_en self))
  else if decide (name = "description_fa") then Some (PyStr (description_fa self))
  else if decide (name = "highlight_badge_en") then Some (PyStr (highlight_badge_en self))
  else if decide (name = "highlight_badge_fa") then Some (PyStr (highlight_badge_fa self))
  else None.

Definition name (active : option string) (self : t) : PyVal :=
  translate active self "name".

Definition description (active : option string) (self : t) : PyVal :=
  translate active self "description".

Definition highlight_badge (active : option string) (self : t) : PyVal :=
  translate active self "highlight_badge".

Definition currency_symbol (self : t) : string :=
  if decide (currency self = "USD") then "$"
  else if decide (currency self = "IRR") then "﷼"
  else currency self.

(** The validators the field declarations attach to [price] and
    [rating], in the order Django runs them. *)
Definition price_validators : list Validators.DecimalCheck :=
  [Validators.MinValueValidator Dec.d0_00; Validators.DecimalValidator 8 2].
Definition rating_validators : list Validators.DecimalCheck :=
  [Validators.MinValueValidator Dec.d0_0; Validators.MaxValueValidator Dec.d5_0;
   Validators.DecimalValidator 2 1].

End MenuItem.

(** *** The persistent store, the cache and the clock *)

(** What the shared cache holds: the settings singleton under
    [SITE_SETTINGS_CACHE_KEY], rendered pages under the page-cache keys. *)
Inductive Cached :=
| CachedSettings (s : SiteSetting.t)
| CachedResponse (body : string).

Global Instance Cached_eq_dec : EqDecision Cached.
Proof. solve_decision. Defined.

Record World := {
  site_settings : list SiteSetting.t;
  categories : list MenuCategory.t;
  items : list MenuItem.t;
  cache : gmap string (Cache.Entry Cached);
  now : Z;
}.

Definition with_site_settings (rows : list SiteSetting.t) (w : World) : World :=
  {| site_settings := rows; categories := categories w; items := items w;
     cache := cache w; now := now w |}.
Definition with_categories (rows : list MenuCategory.t) (w : World) : World :=
  {| site_settings := site_settings w; categories := rows; items := items w;
     cache := cache w; now := now w |}.
Definition with_items (rows : list MenuItem.t) (w : World) : World :=
  {| site_settings := site_settings w; categories := categories w; items := rows;
     cache := cache w; now := now w |}.
Definition with_cache (c : gmap string (Cache.Entry Cached)) (w : World) : World :=
  {| site_settings := site_settings w; categories := categories w; items := items w;
     cache := c; now := now w |}.

(** [cache.delete(key)] on the world. *)
Definition cache_delete (key : string) (w : World) : World :=
  with_cache (Cache.delete key (cache w)) w.

Import Orm.

(** *** SiteSetting.save and SiteSetting.delete *)

(** [super().save()] for a [SiteSetting]: the table has no constraint
    that a write can violate. *)
Definition SiteSetting_base_save (self : SiteSetting.t) (w : World)
  : SiteSetting.t * World :=
  let k := default (next_pk SiteSetting.pk (site_settings w)) (SiteSetting.pk self) in
  let row := SiteSetting.set_pk k self in
  (row, with_site_settings (write SiteSetting.pk k row (site_settings w)) w).

Definition SiteSetting_save (self : SiteSetting.t) (w : World)
  : SiteSetting.t * World :=
  let '(self, w) := SiteSetting_base_save self w in
  (self, cache_delete SITE_SETTINGS_CACHE_KEY w).

(** [Model.delete] raises [ValueError] on an instance that has no key;
    the statement after [super().delete()] is then not reached. *)
Definition SiteSetting_delete (self : SiteSetting.t) (w : World)
  : World * Outcome :=
  match SiteSetting.pk self with
  | Some k =>
      let w := with_site_settings (remove SiteSetting.pk k (site_settings w)) w in
      (cache_delete SITE_SETTINGS_CACHE_KEY w, Deleted)
  | None => (w, ValueError)
  end.

(** *** MenuCategory: the inherited save and delete *)

Definition MenuCategory_save (self : MenuCategory.t) (w : World)
  : MenuCategory.t * World :=
  let k := default (next_pk MenuCategory.pk (categories w)) (MenuCategory.pk self) in
  let row := MenuCategory.stored k (now w) self in
  (row, with_categories (write MenuCategory.pk k row (categories w)) w).

(** Deleting a category deletes its items ([on_delete=CASCADE]). *)
Definition MenuCategory_delete (self : MenuCategory.t) (w : World)
  : World * Outcome :=
  match MenuCategory.pk self with
  | Some k =>
      let w := with_items (filter (λ i, MenuItem.category_id i ≠ k) (items w)) w in
      (with_categories (remove MenuCategory.pk k (categories w)) w, Deleted)
  | None => (w, ValueError)
  end.

(** *** MenuItem.save and the inherited delete *)

(** [super().save()] for a [MenuItem]: the foreign key must name a stored
    category and [slug] is [unique]; a violated constraint raises and
    writes nothing. Field validators are not run here: Django runs them
    in [full_clean], which [save] does not call. *)
Definition MenuItem_base_save (self : MenuItem.t) (w : World)
  : MenuItem.t * World * Outcome :=
  let k := default (next_pk MenuItem.pk (items w)) (MenuItem.pk self) in
  if negb (existsb (has_pk MenuCategory.pk (MenuItem.category_id self)) (categories w))
  then (self, w, IntegrityError "category_id")
  else if existsb (λ r, bool_decide (MenuItem.slug r = MenuItem.slug self)
                        && negb (has_pk MenuItem.pk k r)) (items w)
  then (self, w, IntegrityError "slug")
  else
    let row := MenuItem.stored k (now w) self in
    (row, with_items (write MenuItem.pk k row (items w)) w, Saved).

Section save.
(** [django.utils.text.slugify]. *)
Variable slugify : string → string.

Definition MenuItem_save (self : MenuItem.t) (w : World)
  : MenuItem.t * World * Outcome :=
  let self :=
    if negb (Py.truthy (MenuItem.slug self))
    then MenuItem.set_slug (slugify (MenuItem.name_en self)) self
    else self in
  MenuItem_base_save self w.

(** A history of saves of one instance: before each save the operator
    applies an edit to the instance; a save that raises leaves the
    instance as it was when the exception left [save]. *)
Fixpoint MenuItem_saves (edits : list (MenuItem.t → MenuItem.t))
    (self : MenuItem.t) (w : World) : MenuItem.t * World :=
  match edits with
  | [] => (self, w)
  | edit :: edits =>
      let '(self, w, _) := MenuItem_save (edit self) w in
      MenuItem_saves edits self w
  end.
End save.

Definition MenuItem_delete (self : MenuItem.t) (w : World) : World * Outcome :=
  match MenuItem.pk self with
  | Some k => (with_items (remove MenuItem.pk k (items w)) w, Deleted)
  | None => (w, ValueError)
  end.

(** *** Model validation: [MenuItem.full_clean]

    Django runs the validators of the field declarations in
    [clean_fields]; a field declared [blank=True] is skipped when its
    value is empty. *)

Definition is_slug_char (a : ascii) : bool :=
  let n := N_of_ascii a in
  ((48 <=? n) && (n <=? 57) || (65 <=? n) && (n <=? 90)
   || (97 <=? n) && (n <=? 122) || (n =? 45) || (n =? 95))%N.

Definition field_error (field code : string) : Validators.ValidationError :=
  {| Validators.err_field := field; Validators.err_code := code |}.

Definition MenuItem_clean_fields (self : MenuItem.t) (w : World)
  : list Validators.ValidationError :=
  (if existsb (has_pk MenuCategory.pk (MenuItem.category_id self)) (categories w)
   then [] else [field_error "category" "invalid"])
  ++ Validators.clean_char "name_en" false 140 (MenuItem.name_en self)
  ++ Validators.clean_char "name_fa" false 140 (MenuItem.name_fa self)
  ++ (if decide (MenuItem.slug self = "") then []
      else Validators.clean_char "slug" true 50 (MenuItem.slug self)
           ++ (if forallb is_slug_char (String.list_ascii_of_string (MenuItem.slug self))
               then [] else [field_error "slug" "invalid"]))
  ++ Validators.run_validators "price" MenuItem.price_validators (MenuItem.price self)
  ++ (if decide (MenuItem.currency self = "") then [field_error "currency" "blank"]
      else Validators.clean_char "currency" false 3 (MenuItem.currency self)
           ++ (if decide (MenuItem.currency self ∈ ["IRR"; "USD"])
               then [] else [field_error "currency" "invalid_choice"]))
  ++ match MenuItem.calories self with
     | Some n => if (n <? 0)%Z then [field_error "calories" "min_value"] else []
     | None => []
     end
  ++ Validators.clean_char "preparation_time" true 40 (MenuItem.preparation_time self)
  ++ Validators.clean_char "highlight_badge_en" true 60 (MenuItem.highlight_badge_en self)
  ++ Validators.clean_char "highlight_badge_fa" true 60 (MenuItem.highlight_badge_fa self)
  ++ match MenuItem.rating self with
     | Some r => Validators.run_validators "rating" MenuItem.rating_validators r
     | None => []
     end.

(** [validate_unique]: another row already holds this slug. *)
Definition MenuItem_validate_unique (self : MenuItem.t) (w : World)
  : list Validators.ValidationError :=
  if existsb (λ r, bool_decide (MenuItem.slug r = MenuItem.slug self)
                   && negb (bool_decide (MenuItem.pk r = MenuItem.pk self)))
             (items w)
  then [field_error "slug" "unique"] else [].

Definition MenuItem_full_clean (self : MenuItem.t) (w : World)
  : list Validators.ValidationError :=
  MenuItem_clean_fields self w ++ MenuItem_validate_unique self w.

End Models.

(** ** Requests and settings *)

Record User := {
  is_active_user : bool;
  is_superuser : bool;
  all_permissions : gset string;
}.

Record HttpRequest := {
  path_info : string;
  COOKIES : gmap string string;
  request_LANGUAGE_CODE : option string;
  user : User;
}.

Record Settings := {
  LANGUAGES : list (string * string);
  LANGUAGE_CODE : string;
  LANGUAGE_COOKIE_NAME : string;
}.

(** ** menu/context_processors.py *)

Module ContextProcessors.

Import Py Models.

(** [_language_paths(request)]: the dict is filled by assignment, one
    language of [settings.LANGUAGES] after the other. *)
Definition _language_paths (settings : Settings) (request : HttpRequest)
  : gmap string string :=
  let path := or_else (path_info request) "/" in
  let trimmed := lstrip slash path in
  let parts := if Py.truthy trimmed then split1 slash trimmed else [] in
  let language_codes : gset string := list_to_set (LANGUAGES settings).*1 in
  let remainder :=
    match parts with
    | p0 :: rest =>
        if decide (p0 ∈ language_codes)
        then match rest with p1 :: _ => p1 | [] => "" end
        else trimmed
    | [] => trimmed
    end in
  let remainder := strip slash remainder in
  foldl (λ urls '(code, _),
           let suffix := if Py.truthy remainder then remainder +:+ "/" else "" in
           <[code := ("/" +:+ code +:+ "/") +:+ suffix]> urls)
        ∅ (LANGUAGES settings).

(** The remainder [_language_paths] computes from the trimmed path, on
    its own. *)
Definition code_remainder (codes : gset string) (trimmed : string) : string :=
  strip slash
    match (if Py.truthy trimmed then split1 slash trimmed else []) with
    | p0 :: rest =>
        if decide (p0 ∈ codes)
        then match rest with p1 :: _ => p1 | [] => "" end
        else trimmed
    | [] => trimmed
    end.

Record GlobalContext := {
  ctx_site_settings : Cached;
  ctx_language_urls : gmap string string;
}.

(** [global_settings(request)]: reads and may fill the cache. *)
Definition global_settings (settings : Settings) (request : HttpRequest)
    (w : World) : GlobalContext * World :=
  let '(settings_instance, w) :=
    match Cache.get (now w) SITE_SETTINGS_CACHE_KEY (cache w) with
    | Some v => (v, w)
    | None =>
        let settings_instance :=
          match Orm.first SiteSetting.pk (site_settings w) with
          | Some s => s
          | None => SiteSetting.init "Cafe Menu"
          end in
        (CachedSettings settings_instance,
         with_cache (Cache.set (now w) SITE_SETTINGS_CACHE_KEY
                       (CachedSettings settings_instance) (60 * 5) (cache w)) w)
    end in
  let language_urls := _language_paths settings request in
  ({| ctx_site_settings := settings_instance;
      ctx_language_urls := language_urls |}, w).

End ContextProcessors.

(** ** menu/views.py *)

Module Views.

Import Models.

(** [order_by("display_order")]. *)
Definition category_le (a b : MenuCategory.t) : Prop :=
  (MenuCategory.display_order a ≤ MenuCategory.display_order b)%N.

(** [order_by("-is_signature", "name_en")]: signature rows first, then by
    English name, texts being compared byte by byte (a binary
    collation). *)
Definition item_le (a b : MenuItem.t) : Prop :=
  (MenuItem.is_signature a = true ∧ MenuItem.is_signature b = false)
  ∨ (MenuItem.is_signature a = MenuItem.is_signature b
     ∧ (MenuItem.name_en a ≤ MenuItem.name_en b)%string).

Global Instance category_le_dec : RelDecision category_le.
Proof. intros a b. unfold category_le. apply _. Defined.

Global Instance item_le_dec : RelDecision item_le.
Proof. intros a b. unfold item_le. apply _. Defined.

(** A fetched category with the rows the prefetch attached to it,
    [category.items.all()]. *)
Record Fetched := {
  category : MenuCategory.t;
  items_all : list MenuItem.t;
}.

(** [MenuCategory.objects.filter(is_active=True).order_by("display_order")]. *)
Definition active_categories (w : World) : list MenuCategory.t :=
  merge_sort category_le
    (filter (λ c, MenuCategory.is_active c = true) (categories w)).

(** The prefetch query: the available items of the fetched categories,
    in the order of the [Prefetch] queryset. *)
Definition prefetch_items (cats : list MenuCategory.t) (w : World)
  : list MenuItem.t :=
  merge_sort item_le
    (filter (λ i, MenuItem.is_available i = true
                  ∧ Some (MenuItem.category_id i) ∈ (MenuCategory.pk <$> cats))
            (items w)).

(** Each category receives its rows of the prefetch result, in order. *)
Definition attach (cats : list MenuCategory.t) (related : list MenuItem.t)
  : list Fetched :=
  (λ c, {| category := c;
           items_all := filter (λ i, Some (MenuItem.category_id i) = MenuCategory.pk c)
                               related |}) <$> cats.

(** [islice(iterable, n)] consumed by [list]. *)
Definition islice {A} (xs : list A) (n : nat) : list A := take n xs.

Record Context := {
  ctx_categories : list Fetched;
  ctx_signature_items : list MenuItem.t;
  ctx_language_selected : bool;
}.

(** [HomePageView.get_context_data]. *)
Definition get_context_data (settings : Settings) (request : HttpRequest)
    (w : World) : Context :=
  let cats := active_categories w in
  let categories := attach cats (prefetch_items cats w) in
  let language_cookie := COOKIES request !! LANGUAGE_COOKIE_NAME settings in
  let current_language := request_LANGUAGE_CODE request in
  let default_lang := Py.split_head Py.hyphen (LANGUAGE_CODE settings) in
  {| ctx_categories := categories;
     ctx_signature_items :=
       islice (category ← categories;
               filter (λ item, MenuItem.is_signature item = true)
                      (items_all category)) 4;
     ctx_language_selected :=
       Py.truthy (default "" language_cookie)
       || (Py.truthy (default "" current_language)
           && bool_decide (Py.split_head Py.hyphen (default "" current_language)
                           ≠ default_lang)) |}.

End Views.

(** ** menu/admin.py *)

Module Admin.

Import Models.

(** [user.has_perm(perm)] with the default backend. *)
Definition has_perm (u : User) (perm : string) : bool :=
  (is_active_user u && is_superuser u)
  || (is_active_user u && bool_decide (perm ∈ all_permissions u)).

(** [ModelAdmin.has_add_permission(request)], the inherited method. *)
Definition ModelAdmin_has_add_permission (app_label model_name : string)
    (request : HttpRequest) : bool :=
  has_perm (user request) (app_label +:+ ".add_" +:+ model_name).

(** [SiteSettingAdmin.has_add_permission]. *)
Definition has_add_permission (request : HttpRequest) (w : World) : bool :=
  if Orm.exists_ (site_settings w) then false
  else ModelAdmin_has_add_permission "menu" "sitesetting" request.

Section forms.
Variable slugify : string → string.

(** Submitting the add or change form of a menu item: the form is
    valid when [full_clean] reports nothing, and only a valid form
    reaches [save]. *)
Definition MenuItemAdmin_submit (obj : MenuItem.t) (w : World)
  : MenuItem.t * World * Orm.Outcome :=
  match MenuItem_full_clean obj w with
  | [] => MenuItem_save slugify obj w
  | errors => (obj, w, Orm.Rejected errors)
  end.
End forms.

End Admin.

(** ** django.utils.text.slugify on ASCII text *)

Module Text.

Definition code (a : ascii) : N := N_of_ascii a.

Definition lower (a : ascii) : ascii :=
  if ((65 <=? code a) && (code a <=? 90))%N then ascii_of_N (code a + 32) else a.

Definition is_word (a : ascii) : bool :=
  ((48 <=? code a) && (code a <=? 57) || (65 <=? code a) && (code a <=? 90)
   || (97 <=? code a) && (code a <=? 122) || (code a =? 95))%N.

(** A member of the class [[-\s]]. *)
Definition is_dash_or_space (a : ascii) : bool :=
  ((code a =? 45) || (code a =? 32) || (9 <=? code a) && (code a <=? 13))%N.

(** [re.sub(r"[^\w\s-]", "", value.lower())]; bytes outside ASCII are
    dropped, as [encode("ascii", "ignore")] does. *)
Fixpoint keep_word_chars (s : string) : string :=
  match s with
  | String a s' =>
      if is_word a || is_dash_or_space a
      then String (lower a) (keep_word_chars s')
      else keep_word_chars s'
  | EmptyString => EmptyString
  end.

(** [re.sub(r"[-\s]+", "-", value)]. *)
Fixpoint collapse (in_run : bool) (s : string) : string :=
  match s with
  | String a s' =>
      if is_dash_or_space a
      then (if in_run then collapse true s' else String Py.hyphen (collapse true s'))
      else String a (collapse false s')
  | EmptyString => EmptyString
  end.

Definition is_dash_or_underscore (a : ascii) : bool :=
  ((code a =? 45) || (code a =? 95))%N.

Fixpoint lstrip_chars (p : ascii → bool) (s : string) : string :=
  match s with
  | String a s' => if p a then lstrip_chars p s' else s
  | EmptyString => EmptyString
  end.

Fixpoint rstrip_chars (p : ascii → bool) (s : string) : string :=
  match s with
  | String a s' =>
      match rstrip_chars p s' with
      | EmptyString => if p a then EmptyString else String a EmptyString
      | r => String a r
      end
  | EmptyString => EmptyString
  end.

Definition slugify (value : string) : string :=
  rstrip_chars is_dash_or_underscore
    (lstrip_chars is_dash_or_underscore (collapse false (keep_word_chars value))).

End Text.

(** ** The specification's wording, for comparison with the code *)

Module Spec.

Import Py Models.

(** "strip a leading slash". *)
Definition strip_leading_slash (path : string) : string :=
  match path with
  | String a rest => if decide (a = slash) then rest else path
  | EmptyString => EmptyString
  end.

(** The remainder once the path has been trimmed: "split on the first
    remaining slash into [first_segment, rest]; if first_segment matches
    a configured language code, treat rest as the remainder, else the
    whole trimmed path; strip leading/trailing slashes". *)
Definition remainder_of_trimmed (codes : list string) (trimmed : string) : string :=
  let '(first_segment, rest) := cut slash trimmed in
  strip slash (if decide (first_segment ∈ codes) then default "" rest else trimmed).

(** "/{code}/{remainder}/ if remainder is non-empty, else /{code}/". *)
Definition language_url (remainder code : string) : string :=
  if decide (remainder = "") then "/" +:+ code +:+ "/"
  else "/" +:+ code +:+ "/" +:+ remainder +:+ "/".

Definition urls_for (codes : list string) (remainder : string) : gmap string string :=
  list_to_map ((λ code, (code, language_url remainder code)) <$> codes).

(** The algorithm as the sentence has it: one leading slash is removed. *)
Definition language_urls_one_slash (codes : list string) (path : string)
  : gmap string string :=
  urls_for codes (remainder_of_trimmed codes (strip_leading_slash path)).

(** The same algorithm with every leading slash removed. *)
Definition language_urls (codes : list string) (path : string)
  : gmap string string :=
  urls_for codes (remainder_of_trimmed codes (lstrip slash path)).

(** A language code as Django accepts it in [LANGUAGES] has at least one
    character and no slash. *)
Definition language_code (c : string) : Prop :=
  c ≠ "" ∧ slash ∉ String.list_ascii_of_string c.

(** "Primary subtag": the text before the first hyphen. *)
Fixpoint primary_subtag (tag : string) : string :=
  match tag with
  | String a rest => if decide (a = hyphen) then "" else String a (primary_subtag rest)
  | EmptyString => EmptyString
  end.

(** "default assumed language is en". *)
Definition active_language (active : option string) : string :=
  match active with
  | Some "" | None => "en"
  | Some l => l
  end.

(** "iterate all attached items across all fetched categories, filter to
    is_signature = true, and take at most the first 4 matches". *)
Definition signature_items (fetched : list Views.Fetched) : list MenuItem.t :=
  take 4 (filter (λ i, MenuItem.is_signature i = true)
                 (concat (Views.items_all <$> fetched))).

(** "Available signature items across active categories": the rows the
    home page can show as signature items. *)
Definition shown_signature (w : World) (i : MenuItem.t) : Prop :=
  MenuItem.is_signature i = true
  ∧ MenuItem.is_available i = true
  ∧ Some (MenuItem.category_id i)
      ∈ (MenuCategory.pk <$> filter (λ c, MenuCategory.is_active c = true) (categories w)).

Global Instance shown_signature_dec w i : Decision (shown_signature w i).
Proof. unfold shown_signature. apply _. Defined.

End Spec.

(** ** Sample data *)

Module Fixtures.

Import Models.
Local Open Scope Z_scope.

Definition operator : User :=
  {| is_active_user := true; is_superuser := false;
     all_permissions := {["menu.change_sitesetting"; "menu.add_menuitem"]} |}.

Definition request (path : string) : HttpRequest :=
  {| path_info := path; COOKIES := ∅; request_LANGUAGE_CODE := Some "en";
     user := operator |}.

Definition en_fa : Settings :=
  {| LANGUAGES := [("en", "English"); ("fa", "Persian")];
     LANGUAGE_CODE := "en";
     LANGUAGE_COOKIE_NAME := "django_language" |}.

Definition a_category (k : Z) (title : string) (order : N) (active : bool)
  : MenuCategory.t :=
  {| MenuCategory.pk := Some k;
     MenuCategory.created_at := 0; MenuCategory.updated_at := 0;
     MenuCategory.title_en := title; MenuCategory.title_fa := "";
     MenuCategory.description_en := ""; MenuCategory.description_fa := "";
     MenuCategory.cover_image := None;
     MenuCategory.display_order := order; MenuCategory.is_active := active |}.

Definition an_item (k : option Z) (cat : Z) (name slug : string)
    (cents : Z) (signature available : bool) : MenuItem.t :=
  {| MenuItem.pk := k;
     MenuItem.created_at := 0; MenuItem.updated_at := 0;
     MenuItem.category_id := cat;
     MenuItem.name_en := name; MenuItem.name_fa := name;
     MenuItem.slug := slug;
     MenuItem.description_en := ""; MenuItem.description_fa := "";
     MenuItem.price := {| Dec.coefficient := cents; Dec.exponent := -2 |};
     MenuItem.currency := "USD"; MenuItem.image := None;
     MenuItem.is_signature := signature; MenuItem.is_available := available;
     MenuItem.calories := None; MenuItem.preparation_time := "";
     MenuItem.highlight_badge_en := ""; MenuItem.highlight_badge_fa := "";
     MenuItem.rating := Some Dec.d5_0 |}.

Definition coffee : MenuCategory.t := a_category 1 "Coffee" 1 true.
Definition desserts : MenuCategory.t := a_category 2 "Desserts" 2 true.
Definition archive : MenuCategory.t := a_category 3 "Archive" 0 false.

Definition espresso : MenuItem.t := an_item (Some 1) 1 "Espresso" "espresso" 350 true true.
Definition latte : MenuItem.t := an_item (Some 2) 1 "Iced Latte" "iced-latte" 450 false true.
Definition cake : MenuItem.t := an_item (Some 3) 2 "Cake" "cake" 500 true true.
Definition tart : MenuItem.t := an_item (Some 4) 2 "Tart" "tart" 400 false true.
Definition relic : MenuItem.t := an_item (Some 5) 3 "Relic" "relic" 100 true true.
Definition mocha : MenuItem.t := an_item (Some 6) 1 "Mocha" "mocha" 475 true false.

(** Two active categories, one inactive one; no settings record, an empty
    cache. *)
Definition shop : World :=
  {| site_settings := [];
     categories := [desserts; archive; coffee];
     items := [latte; tart; espresso; relic; mocha; cake];
     cache := ∅;
     now := 1000 |}.

(** Six available signature items in the two active categories. *)
Definition festival : World :=
  {| site_settings := [];
     categories := [desserts; archive; coffee];
     items := [an_item (Some 11) 1 "Americano" "americano" 300 true true;
               an_item (Some 12) 1 "Cortado" "cortado" 320 true true;
               an_item (Some 13) 1 "Doppio" "doppio" 330 true true;
               an_item (Some 14) 2 "Baklava" "baklava" 250 true true;
               an_item (Some 15) 2 "Eclair" "eclair" 260 true true;
               an_item (Some 16) 2 "Flan" "flan" 270 true true;
               an_item (Some 17) 2 "Gelato" "gelato" 280 false true];
     cache := ∅;
     now := 1000 |}.

(** An item that was never saved: no key, no slug, a price of -1.00. *)
Definition refill : MenuItem.t := an_item None 1 "Free Refill" "" (-100) false true.

(** A settings record. *)
Definition house : SiteSetting.t := SiteSetting.set_pk 1 (SiteSetting.init "Anes Cafe").

End Fixtures.

(** ** Integrity of the stored tables *)

Module Integrity.

Import Models.

(** Every item names a stored category (the foreign key of
    [MenuItem.category]). *)
Definition referential (w : World) : Prop :=
  Forall (λ i, existsb (Orm.has_pk MenuCategory.pk (MenuItem.category_id i))
                       (categories w) = true)
         (items w).

(** Item rows have keys, and no two share a key or a slug ([slug] is
    declared [unique]). *)
Definition well_keyed (w : World) : Prop :=
  Forall (λ i, is_Some (MenuItem.pk i)) (items w)
  ∧ NoDup (MenuItem.pk <$> items w)
  ∧ NoDup (MenuItem.slug <$> items w).

(** The slug an instance has once [save] has looked at it. *)
Definition slug_to_save (slugify : string → string) (self : MenuItem.t) : string :=
  if decide (MenuItem.slug self = "") then slugify (MenuItem.name_en self)
  else MenuItem.slug self.

End Integrity.

(** ** Price display *)

Module Pricing.

Import Dec Models.
Local Open Scope Z_scope.

(** [n / 10 ^ k] rounded to the nearest integer, ties to the even one
    ([ROUND_HALF_EVEN], the rounding of the default decimal context),
    for [0 ≤ n] and [0 < k]. *)
Definition round_half_even (n k : Z) : Z :=
  let p := 10 ^ k in
  let q := n / p in
  let r := n mod p in
  if 2 * r <? p then q
  else if p <? 2 * r then q + 1
  else if Z.even q then q else q + 1.

(** The magnitude of the coefficient once the decimal is rescaled to
    exponent [-2], which is what the format type [.2f] does first. *)
Definition cents (d : Decimal) : Z :=
  let n := Z.abs (coefficient d) in
  if -2 <=? exponent d then n * 10 ^ (exponent d + 2)
  else round_half_even n (-2 - exponent d).

(** The decimal digits of a natural number, ["0"] for zero. *)
Definition digits (n : Z) : string :=
  NilEmpty.string_of_uint (N.to_uint (Z.to_N n)).

(** The character of one digit. *)
Definition digit (n : Z) : ascii := ascii_of_N (48 + Z.to_N n).

(** [format(d, '0.2f')]: sign, whole part, a point and two decimals.
    The sign is that of the decimal itself, so a negative amount that
    rounds to zero keeps its minus. A negative zero, which [Decimal]
    does not represent, would print its minus as well. *)
Definition format_2f (d : Decimal) : string :=
  let c := cents d in
  (if coefficient d <? 0 then "-" else "")
  +:+ digits (c / 100)
  +:+ String "." (String (digit (c / 10 mod 10)) (String (digit (c mod 10)) "")).

Definition formatted_price (self : MenuItem.t) : string :=
  MenuItem.currency_symbol self +:+ format_2f (MenuItem.price self).

(** A tart and a pie at the same price. *)
Definition pie : MenuItem.t :=
  Fixtures.an_item (Some 7) 2 "Pie" "pie" 400 false true.

End Pricing.

(** * Proof helpers *)

(** Case analysis on every conditional of the goal. *)
Ltac case_ifs :=
  repeat match goal with |- context [if ?b then _ else _] => destruct b end.

(** [H] places a text in a list of texts it differs from. *)
Ltac not_listed H :=
  repeat (apply elem_of_cons in H as [H|H]; [discriminate H|]);
  by apply elem_of_nil in H.

(** * Facts about the string primitives *)

Module PyFacts.

Import Py.

Lemma or_else_lstrip path : lstrip slash (or_else path "/") = lstrip slash path.
Proof. by destruct path. Qed.

Lemma truthy_true s : truthy s = true ↔ s ≠ "".
Proof. unfold truthy. by rewrite bool_decide_eq_true. Qed.

Lemma truthy_false s : truthy s = false ↔ s = "".
Proof.
  unfold truthy. rewrite bool_decide_eq_false.
  destruct (decide (s = "")); naive_solver.
Qed.

Lemma split1_cut c s :
  split1 c s = (cut c s).1 :: option_list (cut c s).2.
Proof. unfold split1. by destruct (cut c s). Qed.

Lemma app_cons (a : ascii) (s t : string) : String a s +:+ t = String a (s +:+ t).
Proof. done. Qed.

Lemma app_nil_r (s : string) : s +:+ "" = s.
Proof. induction s as [|a s IH]; [done|]. by rewrite app_cons, IH. Qed.

Lemma app_assoc (s1 s2 s3 : string) : (s1 +:+ s2) +:+ s3 = s1 +:+ s2 +:+ s3.
Proof. induction s1 as [|a s1 IH]; [done|]. by rewrite !app_cons, IH. Qed.

(** *** Stripping *)

Lemma lstrip_no_leading c s : no_leading c (lstrip c s).
Proof.
  induction s as [|a s IH]; simpl; [done|].
  destruct (decide (a = c)); [done|]. by simpl.
Qed.

Lemma lstrip_id c s : no_leading c s → lstrip c s = s.
Proof. destruct s as [|a s]; simpl; [done|]. intros Ha. by rewrite decide_False. Qed.

Lemma rstrip_no_leading c s : no_leading c s → no_leading c (rstrip c s).
Proof.
  destruct s as [|a s]; simpl; [done|]. intros Ha.
  destruct (rstrip c s); [by rewrite decide_False|done].
Qed.

Lemma strip_no_leading c s : no_leading c (strip c s).
Proof. apply rstrip_no_leading, lstrip_no_leading. Qed.

Lemma rstrip_snoc c s : rstrip c (s +:+ String c "") = rstrip c s.
Proof.
  induction s as [|a s IH].
  - simpl. by rewrite decide_True.
  - rewrite app_cons. simpl. by rewrite IH.
Qed.

Lemma rstrip_idemp c s : rstrip c (rstrip c s) = rstrip c s.
Proof.
  induction s as [|a s IH]; [done|]. simpl.
  destruct (rstrip c s) as [|b r] eqn:Hr.
  - destruct (decide (a = c)) as [->|Ha]; [done|]. simpl. by rewrite decide_False.
  - simpl in *. by rewrite IH.
Qed.

Lemma no_leading_app c s t : s ≠ "" → no_leading c s → no_leading c (s +:+ t).
Proof. by destruct s. Qed.

(** Appending a slash to a stripped, non-empty text and stripping again
    gives the text back. *)
Lemma strip_strip_snoc c s :
  strip c s ≠ "" → strip c (strip c s +:+ String c "") = strip c s.
Proof.
  intros Hne. unfold strip at 1.
  rewrite lstrip_id by (apply no_leading_app; [done|apply strip_no_leading]).
  rewrite rstrip_snoc. apply rstrip_idemp.
Qed.

(** *** Cutting at the first separator *)

Lemma cut_app c s t :
  c ∉ String.list_ascii_of_string s →
  cut c (s +:+ String c t) = (s, Some t).
Proof.
  induction s as [|a s IH]; intros Hc.
  - simpl. by rewrite decide_True.
  - rewrite app_cons. simpl in *.
    rewrite decide_False by (intros ->; apply Hc; by left).
    rewrite IH; [done|]. intros ?. apply Hc. by right.
Qed.

Lemma no_leading_of_not_elem c s :
  c ∉ String.list_ascii_of_string s → no_leading c s.
Proof. destruct s as [|a s]; simpl; [done|]. intros Hc ->. apply Hc. by left. Qed.

End PyFacts.

(** * The language switcher's URLs *)

Module LanguageUrls.

Import Py PyFacts Models ContextProcessors Fixtures.

(** Reading a dict that was filled by assignment, one key after another. *)
Lemma assigned_lookup (f : string → string) (l : list (string * string))
    (m : gmap string string) (k : string) :
  foldl (λ urls '(code, _), <[code := f code]> urls) m l !! k
  = if decide (k ∈ l.*1) then Some (f k) else m !! k.
Proof.
  revert m. induction l as [|[c n] l IH]; intros m.
  - destruct (decide (k ∈ [].*1)) as [Hin|_]; [|done]. by apply elem_of_nil in Hin.
  - cbn [foldl]. rewrite IH, fmap_cons. cbn [fst].
    destruct (decide (k ∈ l.*1)) as [Hin|Hout], (decide (k ∈ c :: l.*1)) as [Hin'|Hout'];
      try done.
    + exfalso. apply Hout'. by right.
    + apply elem_of_cons in Hin' as [->|?]; [|done]. by rewrite lookup_insert_eq.
    + apply lookup_insert_ne. intros ->. apply Hout'. by left.
Qed.

Lemma urls_for_lookup (codes : list string) (r k : string) :
  Spec.urls_for codes r !! k
  = if decide (k ∈ codes) then Some (Spec.language_url r k) else None.
Proof.
  unfold Spec.urls_for. induction codes as [|c codes IH].
  - destruct (decide (k ∈ [])) as [Hin|_]; [|done]. by apply elem_of_nil in Hin.
  - rewrite fmap_cons, list_to_map_cons.
    destruct (decide (k ∈ c :: codes)) as [Hin'|Hout'].
    + destruct (decide (c = k)) as [->|Hne]; [by rewrite lookup_insert_eq|].
      rewrite lookup_insert_ne, IH by done.
      apply elem_of_cons in Hin' as [->|?]; [done|]. by rewrite decide_True.
    + rewrite lookup_insert_ne by (intros ->; apply Hout'; by left).
      rewrite IH. rewrite decide_False; [done|]. intros ?. apply Hout'. by right.
Qed.

(** The URL the loop body builds is the one the sentence describes. *)
Lemma url_of_code (r code : string) :
  ("/" +:+ code +:+ "/") +:+ (if Py.truthy r then r +:+ "/" else "")
  = Spec.language_url r code.
Proof.
  unfold Spec.language_url, Py.truthy.
  destruct (decide (r = "")) as [->|Hr].
  - rewrite bool_decide_eq_false_2 by naive_solver. by rewrite app_nil_r.
  - rewrite bool_decide_eq_true_2 by done. by rewrite !app_assoc.
Qed.

Lemma code_remainder_spec (codes : list string) (trimmed : string) :
  code_remainder (list_to_set codes) trimmed = Spec.remainder_of_trimmed codes trimmed.
Proof.
  unfold code_remainder, Spec.remainder_of_trimmed.
  destruct (decide (trimmed = "")) as [->|Hne].
  - cbn. by destruct (decide ("" ∈ codes)).
  - rewrite (proj2 (PyFacts.truthy_true _)) by done.
    rewrite PyFacts.split1_cut. destruct (cut slash trimmed) as [h t]; simpl.
    destruct (decide (h ∈ codes)) as [Hin|Hout].
    + rewrite decide_True by set_solver. by destruct t.
    + by rewrite decide_False by set_solver.
Qed.

Lemma language_paths_unfold (settings : Settings) (request : HttpRequest) :
  _language_paths settings request
  = foldl (λ urls '(code, _),
             <[code := ("/" +:+ code +:+ "/")
                       +:+ (if Py.truthy (code_remainder (list_to_set (LANGUAGES settings).*1)
                                         (lstrip slash (path_info request)))
                            then code_remainder (list_to_set (LANGUAGES settings).*1)
                                   (lstrip slash (path_info request)) +:+ "/"
                            else "")]> urls)
          ∅ (LANGUAGES settings).
Proof. unfold _language_paths, code_remainder. by rewrite PyFacts.or_else_lstrip. Qed.

Lemma language_paths_lookup (settings : Settings) (request : HttpRequest) (k : string) :
  _language_paths settings request !! k
  = if decide (k ∈ (LANGUAGES settings).*1)
    then Some (Spec.language_url
                 (Spec.remainder_of_trimmed (LANGUAGES settings).*1
                    (lstrip slash (path_info request))) k)
    else None.
Proof.
  rewrite language_paths_unfold.
  rewrite (assigned_lookup (λ code, ("/" +:+ code +:+ "/") +:+ _)).
  rewrite url_of_code, code_remainder_spec. by rewrite lookup_empty.
Qed.

(** C4, as the sentence reads: the URLs are those of the algorithm that
    removes one leading slash. The request path [//en/menu-item/] shows
    the difference: the code drops both slashes and recognises [en],
    the algorithm of the sentence keeps [en] in the remainder. *)
Lemma language_paths_not_one_slash :
  _language_paths en_fa (request "//en/menu-item/")
  ≠ Spec.language_urls_one_slash (LANGUAGES en_fa).*1
      (path_info (request "//en/menu-item/")).
Proof.
  intros H. apply (f_equal (λ urls : gmap string string, urls !! "fa")) in H.
  rewrite language_paths_lookup in H. unfold Spec.language_urls_one_slash in H.
  rewrite urls_for_lookup in H. vm_compute in H. discriminate H.
Qed.

(** C4, amended: for every request path and every configured list of
    languages, [language_urls] is the map that sends each configured code
    to [/{code}/{remainder}/] (or [/{code}/] when the remainder is empty),
    the remainder being computed after removing every leading slash of
    the path; [/en/menu-item/] and [/en/] give the maps of the
    specification's examples. *)
Theorem language_paths_spec :
  (∀ (settings : Settings) (request : HttpRequest),
      _language_paths settings request
      = Spec.language_urls (LANGUAGES settings).*1 (path_info request))
  ∧ _language_paths en_fa (request "/en/menu-item/")
    = {[ "en" := "/en/menu-item/"; "fa" := "/fa/menu-item/" ]}
  ∧ _language_paths en_fa (request "/en/")
    = {[ "en" := "/en/"; "fa" := "/fa/" ]}.
Proof.
  assert (∀ settings request,
             _language_paths settings request
             = Spec.language_urls (LANGUAGES settings).*1 (path_info request)) as Hspec.
  { intros settings request. apply map_eq. intros k.
    rewrite language_paths_lookup. unfold Spec.language_urls.
    by rewrite urls_for_lookup. }
  split; [exact Hspec|]. rewrite !Hspec. split; by vm_compute.
Qed.

(** *** Invariance under the language prefix *)

Lemma remainder_is_stripped (codes : list string) (trimmed : string) :
  ∃ y, Spec.remainder_of_trimmed codes trimmed = strip slash y.
Proof. unfold Spec.remainder_of_trimmed. destruct (cut slash trimmed). eauto. Qed.

(** Behind a configured language code the remainder is the rest of the
    path, whatever the code is. *)
Lemma remainder_prefixed (codes : list string) (c x : string) :
  Spec.language_code c → c ∈ codes →
  Spec.remainder_of_trimmed codes (lstrip slash ("/" +:+ c +:+ "/" +:+ x))
  = strip slash x.
Proof.
  intros [Hne Hslash] Hin.
  change ("/" +:+ c +:+ "/" +:+ x) with (String slash (c +:+ String slash x)).
  cbn [lstrip]. rewrite decide_True by done.
  rewrite lstrip_id
    by (apply no_leading_app; [done|by apply no_leading_of_not_elem]).
  unfold Spec.remainder_of_trimmed. rewrite cut_app by done.
  by rewrite decide_True.
Qed.

Lemma language_paths_prefixed (settings : Settings) (request : HttpRequest)
    (c x : string) :
  Spec.language_code c → c ∈ (LANGUAGES settings).*1 →
  path_info request = "/" +:+ c +:+ "/" +:+ x →
  _language_paths settings request
  = Spec.urls_for (LANGUAGES settings).*1 (strip slash x).
Proof.
  intros Hc Hin Hpath. apply map_eq. intros k.
  rewrite language_paths_lookup, urls_for_lookup, Hpath.
  by rewrite remainder_prefixed.
Qed.

(** Every URL of the map is a language code followed by a text that
    strips back to the remainder. *)
Lemma language_url_shape (r code : string) :
  (∃ y, r = strip slash y) →
  ∃ x, Spec.language_url r code = "/" +:+ code +:+ "/" +:+ x ∧ strip slash x = r.
Proof.
  intros [y ->]. unfold Spec.language_url.
  destruct (decide (strip slash y = "")) as [Hr|Hr].
  - exists "". by rewrite Hr.
  - exists (strip slash y +:+ "/"). split; [done|]. by apply strip_strip_snoc.
Qed.

(** C10: the map does not depend on the language prefix of the path. For
    every [r] and all configured language codes [c1] and [c2] (a language
    code is not empty and holds no slash), the paths [/{c1}/{r}/] and
    [/{c2}/{r}/] give the same map; and a request for any URL the map
    produces gives the same map again. *)
Theorem language_paths_prefix_invariant (settings : Settings) :
  (∀ (r c1 c2 : string) (request1 request2 : HttpRequest),
      c1 ∈ (LANGUAGES settings).*1 → Spec.language_code c1 →
      c2 ∈ (LANGUAGES settings).*1 → Spec.language_code c2 →
      path_info request1 = "/" +:+ c1 +:+ "/" +:+ r +:+ "/" →
      path_info request2 = "/" +:+ c2 +:+ "/" +:+ r +:+ "/" →
      _language_paths settings request1 = _language_paths settings request2)
  ∧ (∀ (request request' : HttpRequest) (code url : string),
        Spec.language_code code →
        _language_paths settings request !! code = Some url →
        path_info request' = url →
        _language_paths settings request' = _language_paths settings request).
Proof.
  split.
  - intros r c1 c2 request1 request2 Hin1 Hc1 Hin2 Hc2 Hp1 Hp2.
    rewrite (language_paths_prefixed settings request1 c1 (r +:+ "/")) by done.
    by rewrite (language_paths_prefixed settings request2 c2 (r +:+ "/")) by done.
  - intros request request' code url Hcode Hurl Hpath.
    rewrite language_paths_lookup in Hurl.
    destruct (decide (code ∈ (LANGUAGES settings).*1)) as [Hin|]; [|done].
    injection Hurl as <-.
    destruct (language_url_shape
                (Spec.remainder_of_trimmed (LANGUAGES settings).*1
                   (lstrip slash (path_info request))) code) as (x & Hx & Hstrip);
      [apply remainder_is_stripped|].
    rewrite Hx in Hpath.
    rewrite (language_paths_prefixed settings request' code x) by done.
    rewrite Hstrip. apply map_eq. intros k.
    by rewrite language_paths_lookup, urls_for_lookup.
Qed.

Lemma en_fa_codes : Forall Spec.language_code (LANGUAGES en_fa).*1.
Proof.
  repeat constructor; try discriminate;
    intros H; not_listed H.
Defined.

Lemma language_paths_prefix_invariant_witness :
  _language_paths en_fa (request "/en/menu-item/")
  = _language_paths en_fa (request "/fa/menu-item/")
  ∧ _language_paths en_fa (request "/fa/menu-item/")
    = _language_paths en_fa (request "/menu-item").
Proof.
  pose proof (Forall_inv en_fa_codes) as Hen.
  pose proof (Forall_inv (Forall_inv_tail en_fa_codes)) as Hfa.
  split.
  - apply (proj1 (language_paths_prefix_invariant en_fa) "menu-item" "en" "fa").
    + apply list_elem_of_here.
    + exact Hen.
    + apply list_elem_of_further, list_elem_of_here.
    + exact Hfa.
    + reflexivity.
    + reflexivity.
  - apply (proj2 (language_paths_prefix_invariant en_fa)
             (request "/menu-item") (request "/fa/menu-item/") "fa" "/fa/menu-item/").
    + exact Hfa.
    + vm_compute. reflexivity.
    + reflexivity.
Defined.

End LanguageUrls.

(** * Translatable fields *)

Module Translation.

Import Models.

Lemma split_head_primary_subtag (tag : string) :
  Py.split_head Py.hyphen tag = Spec.primary_subtag tag.
Proof.
  unfold Py.split_head. induction tag as [|a tag IH]; [done|]. simpl.
  destruct (decide (a = Py.hyphen)); [done|].
  destruct (Py.cut Py.hyphen tag) as [h t]. simpl in *. by rewrite IH.
Qed.

Lemma get_language_or_en (active : option string) :
  Py.or_else (default "" active) "en" = Spec.active_language active.
Proof. by destruct active as [[|a l]|]. Qed.

(** The primary subtag holds no hyphen and is followed, in the tag, by
    nothing or by a hyphen. *)
Lemma primary_subtag_prefix (tag : string) :
  (Py.hyphen ∉ String.list_ascii_of_string (Spec.primary_subtag tag))
  ∧ (tag = Spec.primary_subtag tag
     ∨ ∃ rest, tag = Spec.primary_subtag tag +:+ String Py.hyphen rest).
Proof.
  induction tag as [|a tag [IH1 IH2]]; cbn [Spec.primary_subtag].
  - split; [by intros ?%elem_of_nil|by left].
  - destruct (decide (a = Py.hyphen)) as [Heq|Ha]; simpl.
    + subst a. split; [by intros ?%elem_of_nil|]. right. by exists tag.
    + split.
      * intros [Heq|?]%elem_of_cons; [by apply Ha|by apply IH1].
      * destruct IH2 as [IH2|[rest IH2]]; [left|right; exists rest];
          by rewrite ?PyFacts.app_cons, <-IH2.
Qed.

(** C5: for every entity with attribute lookup and every prefix,
    [translate] returns the value of [{prefix}_{lang}], [lang] being the
    primary subtag of the active language ([en] when there is none); when
    that attribute is missing, [None] or the empty string, it returns the
    value of [{prefix}_en] (the empty string when that one is missing).
    With [title_en = "Coffee"] and [title_fa = ""] the title is "Coffee"
    under [fa] and under [en]. *)
Theorem translate_spec :
  (∀ (A : Type) (H : TranslatableFieldsMixin A) (active : option string)
     (self : A) (field_prefix : string),
      let lang := Spec.primary_subtag (Spec.active_language active) in
      let fallback := default (PyStr "") (getattr self (field_prefix +:+ "_en")) in
      translate active self field_prefix
      = match getattr self (field_prefix +:+ "_" +:+ lang) with
        | Some (PyStr s) => if decide (s = "") then fallback else PyStr s
        | Some PyNone | None => fallback
        end)
  ∧ (∀ (entity : gmap string PyVal) (active : option string),
        active ∈ [Some "fa"; Some "en"; Some "fa-IR"; Some "en-US"; None] →
        translate active
          (<["title_en" := PyStr "Coffee"]> (<["title_fa" := PyStr ""]> entity)) "title"
        = PyStr "Coffee")
  ∧ (∀ (c : MenuCategory.t),
        MenuCategory.title_en c = "Coffee" → MenuCategory.title_fa c = "" →
        MenuCategory.title (Some "fa") c = PyStr "Coffee"
        ∧ MenuCategory.title (Some "en") c = PyStr "Coffee").
Proof.
  assert (∀ (A : Type) (H : TranslatableFieldsMixin A) active (self : A) field_prefix,
             translate active self field_prefix
             = match getattr self (field_prefix +:+ "_"
                                   +:+ Spec.primary_subtag (Spec.active_language active)) with
               | Some (PyStr s) =>
                   if decide (s = "")
                   then default (PyStr "") (getattr self (field_prefix +:+ "_en"))
                   else PyStr s
               | Some PyNone | None =>
                   default (PyStr "") (getattr self (field_prefix +:+ "_en"))
               end) as Hspec.
  { intros A H active self field_prefix. unfold translate.
    rewrite get_language_or_en, split_head_primary_subtag.
    destruct (getattr self _) as [[|s]|]; simpl; try done.
    unfold py_or, truthy, Py.truthy.
    destruct (decide (s = "")) as [->|Hs]; [done|].
    by rewrite bool_decide_eq_true_2. }
  split; [exact Hspec|]. split.
  - intros entity active Hactive. rewrite Hspec.
    unfold getattr, dict_translatable.
    repeat (apply elem_of_cons in Hactive as [->|Hactive];
            [repeat match goal with
                    | |- context [@lookup _ _ _ _ ?k _] =>
                        progress (let k' := eval vm_compute in k in change k with k')
                    end;
             repeat first [rewrite lookup_insert_eq | rewrite lookup_insert_ne by done];
             done|]).
    by apply elem_of_nil in Hactive.
  - intros c Hen Hfa. unfold MenuCategory.title. rewrite !Hspec.
    unfold getattr, MenuCategory.translatable. simpl. by rewrite Hen, Hfa.
Qed.

Lemma translate_spec_witness :
  MenuCategory.title (Some "fa") Fixtures.coffee = PyStr "Coffee"
  ∧ MenuCategory.title (Some "en") Fixtures.coffee = PyStr "Coffee".
Proof. apply (proj2 (proj2 translate_spec) Fixtures.coffee); reflexivity. Defined.

End Translation.

(** * The home page *)

Module HomePage.

Import Models Views.

Global Instance category_le_total : Total category_le.
Proof. intros a b. unfold category_le. lia. Qed.

Global Instance category_le_trans : Transitive category_le.
Proof. intros a b c. unfold category_le. lia. Qed.

Global Instance item_le_total : Total item_le.
Proof.
  intros a b. unfold item_le.
  destruct (total String.le (MenuItem.name_en a) (MenuItem.name_en b)),
    (MenuItem.is_signature a), (MenuItem.is_signature b); naive_solver.
Qed.

Global Instance item_le_trans : Transitive item_le.
Proof.
  intros a b c. unfold item_le.
  intros [[Ha Hb]|[Hab Hn1]] [[Hb' Hc]|[Hbc Hn2]].
  - congruence.
  - left. split; congruence.
  - left. split; congruence.
  - right. split; [congruence|]. by etrans.
Qed.

Section sorted_filter.
Context {A : Type} (R : relation A) (P : A → Prop) `{∀ x, Decision (P x)}.

(** A selection of the rows of an ordered result is ordered. *)
Lemma StronglySorted_filter (l : list A) :
  StronglySorted R l → StronglySorted R (filter P l).
Proof.
  induction 1 as [|x l Hl IH Hx]; [constructor|].
  rewrite filter_cons. destruct (decide (P x)); [|done].
  constructor; [done|]. rewrite Forall_forall in Hx |- *.
  intros y [_ Hy]%list_elem_of_filter. by apply Hx.
Qed.
End sorted_filter.

(** What the category query returns. *)
Lemma active_categories_spec (w : World) :
  active_categories w ≡ₚ filter (λ c, MenuCategory.is_active c = true) (categories w)
  ∧ StronglySorted category_le (active_categories w).
Proof.
  unfold active_categories. split.
  - apply merge_sort_Permutation.
  - apply (StronglySorted_merge_sort _).
Qed.

Lemma attach_categories (cats : list MenuCategory.t) (related : list MenuItem.t) :
  category <$> attach cats related = cats.
Proof.
  unfold attach. rewrite <-list_fmap_compose.
  induction cats as [|c cats IH]; [done|]. csimpl. by rewrite IH.
Qed.

(** What the prefetch attaches to a fetched category. *)
Lemma attached_items_spec (w : World) (cats : list MenuCategory.t) (c : MenuCategory.t) :
  c ∈ cats →
  filter (λ i, Some (MenuItem.category_id i) = MenuCategory.pk c) (prefetch_items cats w)
    ≡ₚ filter (λ i, MenuItem.is_available i = true
                    ∧ Some (MenuItem.category_id i) = MenuCategory.pk c) (items w)
  ∧ StronglySorted item_le
      (filter (λ i, Some (MenuItem.category_id i) = MenuCategory.pk c)
              (prefetch_items cats w)).
Proof.
  intros Hc. unfold prefetch_items. split.
  - rewrite merge_sort_Permutation, list_filter_filter.
    erewrite list_filter_iff; [done|]. intros i. split.
    + by intros [Hi [Ha _]].
    + intros [Ha Hi]. repeat split; [done..|].
      rewrite Hi. by apply list_elem_of_fmap_2.
  - apply StronglySorted_filter, (StronglySorted_merge_sort _).
Qed.

(** C2: in every state the context's categories are exactly the active
    category rows, in ascending [display_order]; each carries exactly its
    available item rows, signature items first and then by English name;
    no inactive category and no unavailable item appears. *)
Theorem home_page_categories (settings : Settings) (request : HttpRequest) (w : World) :
  let fetched := ctx_categories (get_context_data settings request w) in
  category <$> fetched
    ≡ₚ filter (λ c, MenuCategory.is_active c = true) (categories w)
  ∧ StronglySorted category_le (category <$> fetched)
  ∧ Forall (λ f,
              items_all f
                ≡ₚ filter (λ i, MenuItem.is_available i = true
                                ∧ Some (MenuItem.category_id i) = MenuCategory.pk (category f))
                          (items w)
              ∧ StronglySorted item_le (items_all f)) fetched
  ∧ Forall (λ f, MenuCategory.is_active (category f) = true
                 ∧ Forall (λ i, MenuItem.is_available i = true) (items_all f)) fetched.
Proof.
  cbn [get_context_data ctx_categories].
  destruct (active_categories_spec w) as [Hperm Hsorted].
  assert (Forall (λ f,
              items_all f
                ≡ₚ filter (λ i, MenuItem.is_available i = true
                                ∧ Some (MenuItem.category_id i) = MenuCategory.pk (category f))
                          (items w)
              ∧ StronglySorted item_le (items_all f))
            (attach (active_categories w)
               (prefetch_items (active_categories w) w))) as Hitems.
  { unfold attach. rewrite Forall_fmap, Forall_forall. intros c Hc.
    by apply attached_items_spec. }
  rewrite attach_categories. repeat split; try done.
  rewrite Forall_forall in Hitems |- *. intros f Hf. split.
  - assert (category f ∈ active_categories w) as Hc.
    { rewrite <-(attach_categories (active_categories w)
                   (prefetch_items (active_categories w) w)).
      by apply list_elem_of_fmap_2. }
    rewrite Hperm in Hc. by apply list_elem_of_filter in Hc as [? _].
  - destruct (Hitems f Hf) as [Hp _]. rewrite Forall_forall. intros i Hi.
    rewrite Hp in Hi. by apply list_elem_of_filter in Hi as [[? _] _].
Qed.

(** *** Signature items *)

Section disjoint_filter.
Context {A : Type} (P Q : A → Prop) `{∀ x, Decision (P x), ∀ x, Decision (Q x)}.

(** Two selections that exclude each other split their union. *)
Lemma filter_or_disjoint (l : list A) :
  (∀ x, P x → Q x → False) →
  filter (λ x, P x ∨ Q x) l ≡ₚ filter P l ++ filter Q l.
Proof.
  intros Hdisj. induction l as [|x l IH]; [done|].
  rewrite !filter_cons.
  destruct (decide (P x)) as [HP|HP], (decide (Q x)) as [HQ|HQ].
  - by destruct (Hdisj x).
  - rewrite decide_True by auto. simpl. by rewrite IH.
  - rewrite decide_True by auto. rewrite IH. apply Permutation_middle.
  - by rewrite decide_False by (intros [?|?]; done).
Qed.
End disjoint_filter.

(** With distinct keys, the rows attached to the categories are, up to
    order, the prefetched rows of these categories. *)
Lemma attached_items_all (cats : list MenuCategory.t) (related : list MenuItem.t) :
  NoDup (MenuCategory.pk <$> cats) →
  concat (items_all <$> attach cats related)
    ≡ₚ filter (λ i, Some (MenuItem.category_id i) ∈ (MenuCategory.pk <$> cats)) related.
Proof.
  unfold attach. rewrite <-list_fmap_compose.
  induction cats as [|c cats IH]; intros Hnodup.
  - csimpl. symmetry. apply Permutation_nil_r.
    apply elem_of_nil_inv. intros i [Hi _]%list_elem_of_filter.
    by apply elem_of_nil in Hi.
  - apply NoDup_cons in Hnodup as [Hc Hnodup]. csimpl. rewrite IH by done.
    rewrite <-filter_or_disjoint.
    + erewrite list_filter_iff; [done|]. intros i. by rewrite elem_of_cons.
    + intros i Hi Hin. apply Hc. by rewrite <-Hi.
Qed.

Lemma islice_signature (fetched : list Fetched) :
  islice (category ← fetched;
          filter (λ item, MenuItem.is_signature item = true) (items_all category)) 4
  = Spec.signature_items fetched.
Proof.
  unfold islice, Spec.signature_items. f_equal.
  induction fetched as [|f fetched IH]; [done|].
  csimpl. by rewrite filter_app, IH.
Qed.

Lemma signature_candidates (w : World) :
  NoDup (MenuCategory.pk <$> categories w) →
  filter (λ i, MenuItem.is_signature i = true)
    (concat (items_all <$> attach (active_categories w)
                             (prefetch_items (active_categories w) w)))
    ≡ₚ filter (Spec.shown_signature w) (items w).
Proof.
  intros Hnodup. destruct (active_categories_spec w) as [Hperm _].
  assert (NoDup (MenuCategory.pk <$> active_categories w)) as Hactive.
  { rewrite Hperm. eapply sublist_NoDup; [exact Hnodup|apply fmap_sublist, sublist_filter]. }
  rewrite attached_items_all by done. unfold prefetch_items.
  rewrite merge_sort_Permutation, !list_filter_filter.
  erewrite list_filter_iff; [done|]. intros i. unfold Spec.shown_signature.
  rewrite Hperm. tauto.
Qed.

(** C3: in every state [signature_items] is the list obtained by going
    through the fetched categories in order and, within each, through its
    attached items in order, keeping the signature items and stopping
    after the first four; with six available signature items in active
    categories it holds exactly four, the first four of that iteration. *)
Theorem signature_items_spec (settings : Settings) (request : HttpRequest) (w : World) :
  let ctx := get_context_data settings request w in
  let iteration :=
    filter (λ i, MenuItem.is_signature i = true)
           (concat (items_all <$> ctx_categories ctx)) in
  ctx_signature_items ctx = take 4 iteration
  ∧ length (ctx_signature_items ctx) = 4 `min` length iteration
  ∧ (NoDup (MenuCategory.pk <$> categories w) →
     length (filter (Spec.shown_signature w) (items w)) = 6 →
     length iteration = 6 ∧ length (ctx_signature_items ctx) = 4).
Proof.
  cbn [get_context_data ctx_categories ctx_signature_items].
  rewrite islice_signature. unfold Spec.signature_items.
  split; [done|]. split; [apply length_take|].
  intros Hnodup Hsix. rewrite length_take.
  rewrite (signature_candidates w Hnodup), Hsix. done.
Qed.

Lemma signature_items_spec_witness :
  length (ctx_signature_items
            (get_context_data Fixtures.en_fa (Fixtures.request "/en/") Fixtures.festival))
  = 4.
Proof.
  apply (proj2 (proj2 (signature_items_spec Fixtures.en_fa (Fixtures.request "/en/")
                         Fixtures.festival))).
  - apply (bool_decide_unpack _). vm_compute. exact I.
  - vm_compute. reflexivity.
Defined.

(** The sample shop: the two active categories in display order, the
    signature item first in each, and the two shown signature items. *)
Example home_page_of_shop :
  let ctx := get_context_data Fixtures.en_fa (Fixtures.request "/en/") Fixtures.shop in
  (λ f, (MenuCategory.title_en (category f), MenuItem.name_en <$> items_all f))
    <$> ctx_categories ctx
  = [("Coffee", ["Espresso"; "Iced Latte"]); ("Desserts", ["Cake"; "Tart"])]
  ∧ MenuItem.name_en <$> ctx_signature_items ctx = ["Espresso"; "Cake"].
Proof. by vm_compute. Qed.

End HomePage.

(** * The settings cache *)

Module SettingsCache.

Import Models ContextProcessors.

(** C7: [SiteSetting.save] and [SiteSetting.delete] remove the entry
    [menu.site_settings] from the cache (a delete that raises because the
    instance was never stored changes nothing); saving or deleting a
    category or an item leaves the cache as it was. *)
Theorem only_settings_invalidate_cache :
  (∀ (self : SiteSetting.t) (w : World),
      cache (SiteSetting_save self w).2 = delete SITE_SETTINGS_CACHE_KEY (cache w)
      ∧ cache (SiteSetting_save self w).2 !! SITE_SETTINGS_CACHE_KEY = None)
  ∧ (∀ (self : SiteSetting.t) (w : World),
        match SiteSetting.pk self with
        | Some _ =>
            (SiteSetting_delete self w).2 = Orm.Deleted
            ∧ cache (SiteSetting_delete self w).1
              = delete SITE_SETTINGS_CACHE_KEY (cache w)
            ∧ cache (SiteSetting_delete self w).1 !! SITE_SETTINGS_CACHE_KEY = None
        | None => SiteSetting_delete self w = (w, Orm.ValueError)
        end)
  ∧ (∀ (self : MenuCategory.t) (w : World),
        cache (MenuCategory_save self w).2 = cache w
        ∧ cache (MenuCategory_delete self w).1 = cache w)
  ∧ (∀ (slugify : string → string) (self : MenuItem.t) (w : World),
        cache (MenuItem_save slugify self w).1.2 = cache w
        ∧ cache (MenuItem_delete self w).1 = cache w).
Proof.
  split; [|split; [|split]].
  - intros self w. unfold SiteSetting_save, SiteSetting_base_save. simpl.
    split; [done|]. apply lookup_delete_eq.
  - intros self w. unfold SiteSetting_delete.
    destruct (SiteSetting.pk self); [|done]. simpl.
    repeat split. apply lookup_delete_eq.
  - intros self w. unfold MenuCategory_save, MenuCategory_delete.
    by destruct (MenuCategory.pk self).
  - intros slugify self w. split.
    + unfold MenuItem_save, MenuItem_base_save.
      case_ifs; done.
    + unfold MenuItem_delete. by destruct (MenuItem.pk self).
Qed.

(** *** Reading the settings *)

Lemma get_after_delete {V} (t : Z) (key : string) (c : gmap string (Cache.Entry V)) :
  Cache.get t key (Cache.delete key c) = None.
Proof. unfold Cache.get, Cache.delete. by rewrite lookup_delete_eq. Qed.

(** After a save the next resolution reads the table again. *)
Lemma resolve_after_save (settings : Settings) (request : HttpRequest)
    (self : SiteSetting.t) (w : World) :
  let w1 := (SiteSetting_save self w).2 in
  ctx_site_settings (global_settings settings request w1).1
  = CachedSettings
      (default (SiteSetting.init "Cafe Menu")
         (Orm.first SiteSetting.pk (site_settings w1))).
Proof.
  unfold SiteSetting_save, SiteSetting_base_save, global_settings.
  cbn [fst snd cache_delete with_cache cache now site_settings].
  rewrite get_after_delete. simpl. by destruct (Orm.first _ _).
Qed.

Lemma first_nil_iff {A} (pk : A → option Z) (rows : list A) :
  Orm.first pk rows = None ↔ rows = [].
Proof.
  destruct rows as [|r rows]; [done|]. simpl.
  split; [|done]. destruct (Orm.first pk rows); [|done]. by case_decide.
Qed.

(** [first] returns a stored row whose key is the smallest. *)
Lemma first_minimal {A} (pk : A → option Z) (rows : list A) (r : A) :
  Orm.first pk rows = Some r →
  r ∈ rows ∧ Forall (λ r', (default 0 (pk r) ≤ default 0 (pk r'))%Z) rows.
Proof.
  revert r. induction rows as [|x rows IH]; intros r; simpl; [done|].
  destruct (Orm.first pk rows) as [r'|] eqn:Hfirst.
  - destruct (IH r' eq_refl) as [Hin Hmin]. case_decide as Hle; intros [= <-].
    + split; [by left|]. constructor; [done|].
      eapply Forall_impl; [exact Hmin|]. simpl. lia.
    + split; [by right|]. constructor; [lia|done].
  - intros [= <-]. apply first_nil_iff in Hfirst as ->.
    split; [by left|]. by repeat constructor.
Qed.

(** C9: on a cache miss [global_settings] reads the first settings row;
    when the table is empty it takes a fresh [SiteSetting] whose
    [site_name_en] is "Cafe Menu" and whose other fields have their
    declared defaults; the store is left as it was (nothing is
    persisted), and what was found is put in the cache under
    [menu.site_settings] for 300 seconds. *)
Theorem global_settings_on_miss (settings : Settings) (request : HttpRequest) (w : World) :
  Cache.get (now w) SITE_SETTINGS_CACHE_KEY (cache w) = None →
  let found :=
    default (SiteSetting.init "Cafe Menu") (Orm.first SiteSetting.pk (site_settings w)) in
  let ctx := (global_settings settings request w).1 in
  let w' := (global_settings settings request w).2 in
  ctx_site_settings ctx = CachedSettings found
  ∧ match site_settings w with
    | [] =>
        found = {|
          SiteSetting.pk := None;
          SiteSetting.site_name_en := "Cafe Menu";
          SiteSetting.site_name_fa := "";
          SiteSetting.site_logo := None;
          SiteSetting.site_favicon := None;
          SiteSetting.hero_headline_en := "";
          SiteSetting.hero_headline_fa := "";
          SiteSetting.hero_subtitle_en := "";
          SiteSetting.hero_subtitle_fa := "";
          SiteSetting.contact_email := "";
          SiteSetting.contact_phone := "";
          SiteSetting.contact_whatsapp := "";
          SiteSetting.address_en := "";
          SiteSetting.address_fa := "";
          SiteSetting.opening_hours := "08:00 - 23:00";
          SiteSetting.footer_text_en := "";
          SiteSetting.footer_text_fa := "";
          SiteSetting.footer_links := [];
          SiteSetting.social_links := ∅;
          SiteSetting.seo_description_en := "";
          SiteSetting.seo_description_fa := "";
        |}
    | _ :: _ =>
        found ∈ site_settings w
        ∧ Forall (λ r, (default 0 (SiteSetting.pk found)
                        ≤ default 0 (SiteSetting.pk r))%Z) (site_settings w)
    end
  ∧ site_settings w' = site_settings w
  ∧ categories w' = categories w
  ∧ items w' = items w
  ∧ now w' = now w
  ∧ cache w'
    = <[SITE_SETTINGS_CACHE_KEY :=
          {| Cache.value := CachedSettings found;
             Cache.expires_at := (now w + 300)%Z |}]> (cache w)
  ∧ (∀ t : Z,
        Cache.get t SITE_SETTINGS_CACHE_KEY (cache w')
        = if decide (t < now w + 300)%Z then Some (CachedSettings found) else None).
Proof.
  intros Hmiss found ctx w'. subst ctx w'. unfold global_settings. rewrite Hmiss.
  fold found. simpl.
  assert (match Orm.first SiteSetting.pk (site_settings w) with
          | Some s => s
          | None => SiteSetting.init "Cafe Menu"
          end = found) as -> by done.
  repeat split.
  - destruct (site_settings w) as [|r rows] eqn:Hrows; [done|].
    destruct (Orm.first SiteSetting.pk (r :: rows)) as [s|] eqn:Hfirst.
    + apply first_minimal in Hfirst. by subst found.
    + by apply first_nil_iff in Hfirst.
  - intros t. unfold Cache.get, Cache.set. rewrite lookup_insert_eq. simpl.
    destruct (decide (t < now w + 300)%Z) as [Hlt|Hge].
    + by rewrite (proj2 (Z.ltb_lt _ _)).
    + by rewrite (proj2 (Z.ltb_ge _ _)) by lia.
Qed.

Lemma global_settings_on_miss_witness :
  ctx_site_settings
    (global_settings Fixtures.en_fa (Fixtures.request "/en/") Fixtures.shop).1
  = CachedSettings (SiteSetting.init "Cafe Menu").
Proof.
  apply (global_settings_on_miss Fixtures.en_fa (Fixtures.request "/en/") Fixtures.shop).
  reflexivity.
Defined.

End SettingsCache.

(** * The settings singleton in the admin *)

Module Singleton.

Import Models Admin.

(** C8, as stated: the add action would be available whenever no settings
    record exists. For an operator without the add permission it is not:
    the method then answers what the inherited permission check answers. *)
Lemma add_needs_permission :
  site_settings Fixtures.shop = []
  ∧ has_add_permission (Fixtures.request "/en/admin/menu/sitesetting/") Fixtures.shop
    = false.
Proof. split; [reflexivity|]. by vm_compute. Qed.

(** C8, amended: the add action is available exactly when no settings
    record exists and the inherited check grants the user the permission
    [menu.add_sitesetting]; with at least one record it is unavailable for
    every request. *)
Theorem has_add_permission_spec :
  (∀ (request : HttpRequest) (w : World),
      has_add_permission request w = true
      ↔ site_settings w = []
        ∧ ModelAdmin_has_add_permission "menu" "sitesetting" request = true)
  ∧ (∀ (request : HttpRequest) (w : World),
        ModelAdmin_has_add_permission "menu" "sitesetting" request
        = has_perm (user request) "menu.add_sitesetting")
  ∧ (∀ (request : HttpRequest) (w : World) (s : SiteSetting.t) (rest : list SiteSetting.t),
        has_add_permission request (with_site_settings (s :: rest) w) = false).
Proof.
  split; [|split].
  - intros request w. unfold has_add_permission.
    destruct (site_settings w) as [|s rest]; simpl; [tauto|].
    split; [done|]. by intros [? _].
  - done.
  - done.
Qed.

End Singleton.

(** * The slug of a menu item *)

Module Slug.

Import Models.

Section slug.
Variable slugify : string → string.

Lemma base_save_slug (self : MenuItem.t) (w : World) :
  MenuItem.slug (MenuItem_base_save self w).1.1 = MenuItem.slug self.
Proof.
  unfold MenuItem_base_save.
  case_ifs; done.
Qed.

(** The slug of the instance once [save] has run. *)
Lemma save_slug (self : MenuItem.t) (w : World) :
  MenuItem.slug (MenuItem_save slugify self w).1.1
  = if decide (MenuItem.slug self = "") then slugify (MenuItem.name_en self)
    else MenuItem.slug self.
Proof.
  unfold MenuItem_save. rewrite base_save_slug. unfold Py.truthy.
  destruct (decide (MenuItem.slug self = "")) as [Hs|Hs].
  - by rewrite bool_decide_eq_false_2 by (by intros ?).
  - by rewrite bool_decide_eq_true_2.
Qed.

(** A save that succeeds stores the instance it returns. *)
Lemma save_stores (self : MenuItem.t) (w : World) :
  (MenuItem_save slugify self w).2 = Orm.Saved →
  (MenuItem_save slugify self w).1.1 ∈ items (MenuItem_save slugify self w).1.2.
Proof.
  unfold MenuItem_save, MenuItem_base_save.
  set (self' := if negb (Py.truthy (MenuItem.slug self)) then _ else _).
  case_ifs;
    try done.
  intros _. cbn [fst snd items with_items]. unfold Orm.write.
  set (k := default _ _).
  destruct (existsb (Orm.has_pk MenuItem.pk k) (items w)) eqn:Hex.
  - apply existsb_exists in Hex as (r & Hr & Hk).
    apply list_elem_of_fmap. exists r. rewrite Hk. split; [done|].
    by apply list_elem_of_In.
  - apply elem_of_app. right. by left.
Qed.

(** Edits that leave the slug alone, followed by saves, keep a slug that
    is set. *)
Lemma saves_keep_slug (edits : list (MenuItem.t → MenuItem.t)) (self : MenuItem.t)
    (w : World) :
  MenuItem.slug self ≠ "" →
  Forall (λ edit, ∀ i, MenuItem.slug (edit i) = MenuItem.slug i) edits →
  MenuItem.slug (MenuItem_saves slugify edits self w).1 = MenuItem.slug self.
Proof.
  intros Hset Hedits. revert self w Hset.
  induction Hedits as [|edit edits Hedit _ IH]; intros self w Hset; [done|].
  cbn [MenuItem_saves].
  pose proof (save_slug (edit self) w) as Hsave.
  destruct (MenuItem_save slugify (edit self) w) as [[self' w'] out].
  cbn [fst] in Hsave. rewrite Hedit in Hsave.
  rewrite decide_False in Hsave by done.
  rewrite IH by congruence. done.
Qed.

(** C6: saving an item whose slug is blank sets the slug to
    [slugify(name_en)], on the instance and, when the save succeeds, on the
    stored row; once the slug is not empty, no later save changes it,
    whatever else is edited in between. *)
Theorem slug_set_once :
  (∀ (self : MenuItem.t) (w : World),
      MenuItem.slug self = "" →
      MenuItem.slug (MenuItem_save slugify self w).1.1 = slugify (MenuItem.name_en self)
      ∧ ((MenuItem_save slugify self w).2 = Orm.Saved →
         ∃ row, row ∈ items (MenuItem_save slugify self w).1.2
                ∧ MenuItem.pk row = MenuItem.pk (MenuItem_save slugify self w).1.1
                ∧ MenuItem.slug row = slugify (MenuItem.name_en self)))
  ∧ (∀ (edits : list (MenuItem.t → MenuItem.t)) (self : MenuItem.t) (w : World),
        MenuItem.slug self ≠ "" →
        Forall (λ edit, ∀ i, MenuItem.slug (edit i) = MenuItem.slug i) edits →
        MenuItem.slug (MenuItem_saves slugify edits self w).1 = MenuItem.slug self).
Proof.
  split.
  - intros self w Hblank.
    assert (MenuItem.slug (MenuItem_save slugify self w).1.1
            = slugify (MenuItem.name_en self)) as Hslug.
    { rewrite save_slug. by rewrite decide_True. }
    split; [done|]. intros Hsaved.
    exists (MenuItem_save slugify self w).1.1. by split; [apply save_stores|].
  - apply saves_keep_slug.
Qed.

End slug.

Example slug_of_flat_white :
  let saved :=
    MenuItem_save Text.slugify
      (Fixtures.an_item None 1 "Flat White" "" 450 false true) Fixtures.shop in
  MenuItem.slug saved.1.1 = "flat-white" ∧ saved.2 = Orm.Saved.
Proof. by vm_compute. Qed.

Lemma slug_set_once_witness :
  MenuItem.slug (MenuItem_save Text.slugify Fixtures.refill Fixtures.shop).1.1
  = "free-refill"
  ∧ MenuItem.slug
      (MenuItem_saves Text.slugify [id; id]
         (MenuItem.set_slug "on-the-house" Fixtures.refill) Fixtures.shop).1
    = "on-the-house".
Proof.
  split.
  - apply (proj1 (slug_set_once Text.slugify) Fixtures.refill Fixtures.shop).
    reflexivity.
  - apply (proj2 (slug_set_once Text.slugify) [id; id]
             (MenuItem.set_slug "on-the-house" Fixtures.refill) Fixtures.shop).
    + discriminate.
    + repeat constructor.
Defined.

End Slug.

(** * Decimal order *)

Module DecFacts.

Import Dec.
Local Open Scope Z_scope.

Lemma scaled_lower (e e' : Z) (d : Decimal) :
  e' ≤ e → e ≤ exponent d → scaled e' d = scaled e d * 10 ^ (e - e').
Proof.
  intros H1 H2. unfold scaled.
  rewrite <-Z.mul_assoc, <-Z.pow_add_r by lia. do 2 f_equal. lia.
Qed.

(** Scaling by a power of ten large enough gives the integer that
    [compare] works with. *)
Lemma value_scaled (n : Z) (d : Decimal) :
  0 ≤ n → - n ≤ exponent d →
  (value d * inject_Z (10 ^ n) == inject_Z (scaled (- n) d))%Q.
Proof.
  intros Hn He. unfold value, scaled.
  destruct (Z.leb_spec 0 (exponent d)) as [Hpos|Hneg].
  - rewrite <-inject_Z_mult. apply inject_Z_injective.
    rewrite <-Z.mul_assoc, <-Z.pow_add_r by lia. do 2 f_equal. lia.
  - unfold Qeq, Qmult, inject_Z. cbn [Qnum Qden].
    rewrite Pos.mul_1_r, Z.mul_1_r, Z2Pos.id by (apply Z.pow_pos_nonneg; lia).
    rewrite <-!Z.mul_assoc, <-Z.pow_add_r by lia. do 2 f_equal. lia.
Qed.

(** [a < b] on decimals is the order of the numbers they denote. *)
Lemma ltb_value (a b : Decimal) : ltb a b = true ↔ (value a < value b)%Q.
Proof.
  set (e := Z.min (exponent a) (exponent b)).
  set (n := Z.max 0 (- e)).
  assert (0 < 10 ^ n) as Hn by (apply Z.pow_pos_nonneg; lia).
  assert (0 < 10 ^ (e - - n)) as Hen by (apply Z.pow_pos_nonneg; lia).
  rewrite <-(Qmult_lt_r (value a) (value b) (inject_Z (10 ^ n)))
    by (by rewrite <-(Zlt_Qlt 0)).
  rewrite !value_scaled by lia. rewrite <-Zlt_Qlt.
  rewrite (scaled_lower e (- n) a), (scaled_lower e (- n) b) by lia.
  rewrite <-Z.mul_lt_mono_pos_r by done.
  unfold ltb, compare. fold e.
  destruct (Z.compare_spec (scaled e a) (scaled e b)); split; intros; try done; lia.
Qed.

Lemma ltb_value_false (a b : Decimal) : ltb a b = false ↔ (value b <= value a)%Q.
Proof.
  rewrite <-not_true_iff_false, ltb_value. split.
  - apply Qnot_lt_le.
  - apply Qle_not_lt.
Qed.

Lemma value_d0_00 : (value d0_00 == 0)%Q.
Proof. reflexivity. Qed.

Lemma value_d0_0 : (value d0_0 == 0)%Q.
Proof. reflexivity. Qed.

Lemma value_d5_0 : (value d5_0 == 5)%Q.
Proof. reflexivity. Qed.

End DecFacts.

(** * Validation of menu items *)

Module Validation.

Import Dec Validators Models Admin.

Lemma other_field_harmless (field code : string) :
  field ∉ ["price"; "rating"] → ¬ is_range_error (field_error field code).
Proof. intros Hf [Hfield _]. by apply Hf. Qed.

Lemma other_code_harmless (field code : string) :
  code ∉ ["min_value"; "max_value"] → ¬ is_range_error (field_error field code).
Proof. intros Hc [_ Hcode]. by apply Hc. Qed.

Lemma clean_char_harmless (field : string) (blank : bool) (n : nat) (s : string) :
  Forall (λ e, ¬ is_range_error e) (clean_char field blank n s).
Proof.
  unfold clean_char.
  case_ifs;
    repeat constructor; intros [_ Hcode]; simpl in Hcode; not_listed Hcode.
Qed.

(** The digit check never reports a range error. *)
Lemma decimal_validator_code (m n : Z) (a : Decimal) (c : string) :
  check_decimal (DecimalValidator m n) a = Some c →
  c ∉ ["min_value"; "max_value"].
Proof.
  unfold check_decimal.
  destruct (if (0 <=? exponent a)%Z then _ else _) as [digits decimals].
  case_ifs;
    intros [= <-] Hc; not_listed Hc.
Qed.

Lemma check_min (limit a : Decimal) :
  check_decimal (MinValueValidator limit) a
  = if ltb a limit then Some "min_value" else None.
Proof. done. Qed.

Lemma check_max (limit a : Decimal) :
  check_decimal (MaxValueValidator limit) a
  = if gtb a limit then Some "max_value" else None.
Proof. done. Qed.

Lemma digit_errors_harmless (field : string) (m n : Z) (a : Decimal) :
  Forall (λ e, ¬ is_range_error e)
    (from_option (λ y, [y]) []
       ((λ c, {| err_field := field; err_code := c |})
          <$> check_decimal (DecimalValidator m n) a)).
Proof.
  destruct (check_decimal (DecimalValidator m n) a) as [c|] eqn:Hc; simpl; [|done].
  repeat constructor. by apply (other_code_harmless field), (decimal_validator_code m n a).
Qed.

(** What the validators of [price] report. *)
Lemma price_validators_spec (a : Decimal) :
  (ltb a d0_00 = true →
   field_error "price" "min_value" ∈ run_validators "price" MenuItem.price_validators a)
  ∧ (ltb a d0_00 = false →
     Forall (λ e, ¬ is_range_error e) (run_validators "price" MenuItem.price_validators a)).
Proof.
  unfold run_validators, MenuItem.price_validators. cbn [omap list_omap].
  rewrite check_min. split; intros ->; cbn [fmap option_fmap option_map].
  - by left.
  - apply digit_errors_harmless.
Qed.

(** What the validators of [rating] report. *)
Lemma rating_validators_spec (a : Decimal) :
  (ltb a d0_0 = true →
   field_error "rating" "min_value" ∈ run_validators "rating" MenuItem.rating_validators a)
  ∧ (gtb a d5_0 = true →
     field_error "rating" "max_value" ∈ run_validators "rating" MenuItem.rating_validators a)
  ∧ (ltb a d0_0 = false → gtb a d5_0 = false →
     Forall (λ e, ¬ is_range_error e) (run_validators "rating" MenuItem.rating_validators a)).
Proof.
  unfold run_validators, MenuItem.rating_validators. cbn [omap list_omap].
  rewrite check_min, check_max. split; [|split].
  - intros ->. cbn [fmap option_fmap option_map]. by left.
  - intros ->. cbn [fmap option_fmap option_map].
    destruct (ltb a d0_0); cbn [fmap option_fmap option_map]; [right|]; by left.
  - intros -> ->. cbn [fmap option_fmap option_map]. apply digit_errors_harmless.
Qed.

Lemma clean_fields_price (self : MenuItem.t) (w : World) (e : ValidationError) :
  e ∈ run_validators "price" MenuItem.price_validators (MenuItem.price self) →
  e ∈ MenuItem_clean_fields self w.
Proof. unfold MenuItem_clean_fields. rewrite !elem_of_app. tauto. Qed.

Lemma clean_fields_rating (self : MenuItem.t) (w : World) (r : Decimal)
    (e : ValidationError) :
  MenuItem.rating self = Some r →
  e ∈ run_validators "rating" MenuItem.rating_validators r →
  e ∈ MenuItem_clean_fields self w.
Proof. intros Hr. unfold MenuItem_clean_fields. rewrite !elem_of_app, Hr. tauto. Qed.

(** With the price and the rating in range, nothing [full_clean] reports
    is a range error. *)
Lemma full_clean_in_range (self : MenuItem.t) (w : World) :
  ltb (MenuItem.price self) d0_00 = false →
  (∀ r, MenuItem.rating self = Some r → ltb r d0_0 = false ∧ gtb r d5_0 = false) →
  Forall (λ e, ¬ is_range_error e) (MenuItem_full_clean self w).
Proof.
  intros Hprice Hrating.
  assert (∀ field code, field ∉ ["price"; "rating"] →
            Forall (λ e, ¬ is_range_error e) [field_error field code]) as Hother.
  { intros field code Hf. repeat constructor. by apply other_field_harmless. }
  assert (∀ field : string,
            field ∈ ["category"; "slug"; "currency"; "calories"] →
            field ∉ ["price"; "rating"]) as Hfields.
  { intros field Hf Hin.
    repeat (apply elem_of_cons in Hf as [->|Hf]; [not_listed Hin|]).
    by apply elem_of_nil in Hf. }
  unfold MenuItem_full_clean, MenuItem_clean_fields, MenuItem_validate_unique.
  repeat (apply Forall_app; split);
    repeat match goal with
           | |- Forall _ (if ?b then _ else _) => destruct b
           | |- Forall _ (match ?o with Some _ => _ | None => _ end) =>
               destruct o eqn:?
           | |- Forall _ (_ ++ _) => apply Forall_app; split
           end;
    try (by constructor);
    try apply clean_char_harmless;
    try (apply Hother, Hfields; rewrite !elem_of_cons; tauto).
  - by apply price_validators_spec.
  - destruct (Hrating _ eq_refl). by apply rating_validators_spec.
Qed.

Lemma submit_rejected (slugify : string → string) (self : MenuItem.t) (w : World)
    (e : ValidationError) :
  e ∈ MenuItem_full_clean self w →
  MenuItemAdmin_submit slugify self w
  = (self, w, Orm.Rejected (MenuItem_full_clean self w)).
Proof.
  unfold MenuItemAdmin_submit. destruct (MenuItem_full_clean self w); [|done].
  by intros ?%elem_of_nil.
Qed.

(** C1, as stated: every attempt to persist an item whose price is below
    0.00 would fail before any write. [MenuItem.save] runs no validator:
    saving the unsaved item [refill], whose price is -1.00, succeeds and
    adds a row to the table. *)
Lemma save_runs_no_validators :
  (value (MenuItem.price Fixtures.refill) < 0)%Q
  ∧ (MenuItem_save Text.slugify Fixtures.refill Fixtures.shop).2 = Orm.Saved
  ∧ length (items (MenuItem_save Text.slugify Fixtures.refill Fixtures.shop).1.2)
    = S (length (items Fixtures.shop))
  ∧ Exists (λ row, MenuItem.price row = MenuItem.price Fixtures.refill)
      (items (MenuItem_save Text.slugify Fixtures.refill Fixtures.shop).1.2).
Proof.
  split; [reflexivity|]. split; [by vm_compute|]. split; [by vm_compute|].
  apply (bool_decide_unpack _). by vm_compute.
Qed.

(** C1, amended: an item submitted through the admin form, which runs
    [full_clean] before [save], with a price below 0.00 or with a rating
    that is set and outside [0.0, 5.0], is rejected with a validation error
    and the store is left as it was; an item whose price is at least 0.00
    and whose rating, when set, lies in [0.0, 5.0] (5.0 included) raises no
    range error. *)
Theorem admin_rejects_out_of_range (slugify : string → string) (self : MenuItem.t)
    (w : World) :
  ((value (MenuItem.price self) < 0)%Q
   ∨ (∃ r, MenuItem.rating self = Some r ∧ ((value r < 0)%Q ∨ (5 < value r)%Q)) →
   ∃ errors,
     MenuItemAdmin_submit slugify self w = (self, w, Orm.Rejected errors)
     ∧ Exists is_range_error errors)
  ∧ ((0 <= value (MenuItem.price self))%Q →
     (∀ r, MenuItem.rating self = Some r → (0 <= value r)%Q ∧ (value r <= 5)%Q) →
     Forall (λ e, ¬ is_range_error e) (MenuItem_full_clean self w)).
Proof.
  split.
  - intros Hbad.
    assert (∃ e, e ∈ MenuItem_clean_fields self w ∧ is_range_error e) as (e & He & Hrange).
    { destruct Hbad as [Hprice|(r & Hr & [Hlow|Hhigh])].
      - exists (field_error "price" "min_value"). split.
        + apply clean_fields_price, price_validators_spec.
          apply DecFacts.ltb_value. by rewrite DecFacts.value_d0_00.
        + split; simpl; rewrite !elem_of_cons; tauto.
      - exists (field_error "rating" "min_value"). split.
        + apply (clean_fields_rating self w r); [done|].
          apply rating_validators_spec.
          apply DecFacts.ltb_value. by rewrite DecFacts.value_d0_0.
        + split; simpl; rewrite !elem_of_cons; tauto.
      - exists (field_error "rating" "max_value"). split.
        + apply (clean_fields_rating self w r); [done|].
          apply rating_validators_spec.
          apply DecFacts.ltb_value. by rewrite DecFacts.value_d5_0.
        + split; simpl; rewrite !elem_of_cons; tauto. }
    assert (e ∈ MenuItem_full_clean self w) as Hfull.
    { unfold MenuItem_full_clean. apply elem_of_app. by left. }
    exists (MenuItem_full_clean self w). split.
    + by eapply submit_rejected.
    + apply Exists_exists. by exists e.
  - intros Hprice Hrating. apply full_clean_in_range.
    + apply DecFacts.ltb_value_false. by rewrite DecFacts.value_d0_00.
    + intros r Hr. destruct (Hrating r Hr) as [Hlow Hhigh]. split.
      * apply DecFacts.ltb_value_false. by rewrite DecFacts.value_d0_0.
      * apply DecFacts.ltb_value_false. by rewrite DecFacts.value_d5_0.
Qed.

Lemma admin_rejects_out_of_range_witness :
  (∃ errors,
      MenuItemAdmin_submit Text.slugify Fixtures.refill Fixtures.shop
      = (Fixtures.refill, Fixtures.shop, Orm.Rejected errors)
      ∧ Exists is_range_error errors)
  ∧ Forall (λ e, ¬ is_range_error e) (MenuItem_full_clean Fixtures.espresso Fixtures.shop).
Proof.
  split.
  - apply (proj1 (admin_rejects_out_of_range Text.slugify Fixtures.refill Fixtures.shop)).
    left. reflexivity.
  - apply (proj2 (admin_rejects_out_of_range Text.slugify Fixtures.espresso Fixtures.shop)).
    + discriminate.
    + intros r [= <-]. split; discriminate.
Defined.

End Validation.

(** * More on the language switcher's URLs *)

Module SwitcherLinks.

Import Py PyFacts Models ContextProcessors LanguageUrls.

Lemma length_app (s t : string) :
  String.length (s +:+ t) = String.length s + String.length t.
Proof. induction s as [|a s IH]; [done|]. rewrite app_cons. simpl. by rewrite IH. Qed.

(** A common ending can be dropped from an equation between texts. *)
Lemma app_inv_tail (s1 s2 t : string) : s1 +:+ t = s2 +:+ t → s1 = s2.
Proof.
  revert s2. induction s1 as [|a s1 IH]; intros [|b s2] Heq; [done| | |].
  - apply (f_equal String.length) in Heq. rewrite !length_app in Heq.
    simpl in Heq. lia.
  - apply (f_equal String.length) in Heq. rewrite !length_app in Heq.
    simpl in Heq. lia.
  - rewrite !app_cons in Heq. injection Heq as -> Heq. f_equal. by apply IH.
Qed.

Lemma app_nil_l (t : string) : "" +:+ t = t.
Proof. done. Qed.

Lemma lstrip_all c s : lstrip c s = "" → lstrip c (s +:+ String c "") = "".
Proof.
  induction s as [|a s IH].
  - intros _. rewrite app_nil_l. simpl. by rewrite decide_True.
  - rewrite app_cons. simpl. destruct (decide (a = c)); [done|discriminate].
Qed.

Lemma lstrip_snoc c s t : lstrip c s ≠ "" → lstrip c (s +:+ t) = lstrip c s +:+ t.
Proof.
  induction s as [|a s IH]; [done|]. rewrite app_cons. simpl.
  destruct (decide (a = c)); [done|]. intros _. by rewrite app_cons.
Qed.

(** One more trailing [c] does not change what [strip] returns. *)
Lemma strip_snoc c s : strip c (s +:+ String c "") = strip c s.
Proof.
  unfold strip. destruct (decide (lstrip c s = "")) as [Hall|Hsome].
  - by rewrite lstrip_all, Hall.
  - by rewrite lstrip_snoc, rstrip_snoc.
Qed.

Lemma cut_none c s : (cut c s).2 = None → (cut c s).1 = s ∧ c ∉ String.list_ascii_of_string s.
Proof.
  induction s as [|a s IH]; simpl.
  - intros _. split; [done|]. by intros ?%elem_of_nil.
  - destruct (decide (a = c)) as [->|Ha]; [done|].
    destruct (cut c s) as [h t]; simpl in *. intros ->.
    destruct (IH eq_refl) as [-> Hc]. split; [done|].
    intros [->|?]%elem_of_cons; [done|by apply Hc].
Qed.

Lemma cut_some c s r :
  (cut c s).2 = Some r → s = (cut c s).1 +:+ String c r ∧ c ∉ String.list_ascii_of_string (cut c s).1.
Proof.
  induction s as [|a s IH]; simpl; [done|].
  destruct (decide (a = c)) as [->|Ha]; simpl.
  - intros [= ->]. split; [done|]. by intros ?%elem_of_nil.
  - destruct (cut c s) as [h t]; simpl in *. intros ->.
    destruct (IH eq_refl) as [Hs Hc]. split; [by rewrite app_cons, <-Hs|].
    intros [->|?]%elem_of_cons; [done|by apply Hc].
Qed.

(** The remainder does not change when a slash is appended to the trimmed
    path. *)
Lemma remainder_snoc (codes : list string) (trimmed : string) :
  trimmed ≠ "" →
  Spec.remainder_of_trimmed codes (trimmed +:+ "/")
  = Spec.remainder_of_trimmed codes trimmed.
Proof.
  intros Hne. unfold Spec.remainder_of_trimmed.
  destruct (cut slash trimmed) as [h [r|]] eqn:Hcut.
  - destruct (cut_some slash trimmed r) as [Hs Hc]; [by rewrite Hcut|].
    rewrite Hcut in Hs, Hc. simpl in Hs, Hc.
    rewrite Hs at 1. rewrite app_assoc, app_cons.
    rewrite (cut_app slash h (r +:+ "/")) by done.
    destruct (decide (h ∈ codes)); simpl.
    + apply strip_snoc.
    + apply strip_snoc.
  - destruct (cut_none slash trimmed) as [Hh Hc]; [by rewrite Hcut|].
    rewrite Hcut in Hh. simpl in Hh. subst h.
    change (trimmed +:+ "/") with (trimmed +:+ String slash "").
    rewrite (cut_app slash trimmed "") by done.
    destruct (decide (trimmed ∈ codes)); simpl; [|apply strip_snoc].
    destruct (decide (trimmed = "")); done.
Qed.

(** X1: the map has exactly one entry per configured language code, and
    none when [LANGUAGES] is empty. *)
Theorem language_paths_keys (settings : Settings) (request : HttpRequest) :
  dom (_language_paths settings request) = list_to_set (LANGUAGES settings).*1
  ∧ (LANGUAGES settings = [] → _language_paths settings request = ∅).
Proof.
  split.
  - apply set_eq. intros k. rewrite elem_of_dom, language_paths_lookup, elem_of_list_to_set.
    destruct (decide (k ∈ (LANGUAGES settings).*1)) as [Hin|Hout].
    + split; [done|]. by eexists.
    + split; [by intros [? ?]|done].
  - intros Hnone. apply map_eq. intros k.
    rewrite language_paths_lookup, Hnone, lookup_empty.
    destruct (decide (k ∈ [].*1)) as [Hin|]; [|done]. by apply elem_of_nil in Hin.
Qed.

Lemma language_paths_keys_witness :
  _language_paths
    {| LANGUAGES := []; LANGUAGE_CODE := "en"; LANGUAGE_COOKIE_NAME := "django_language" |}
    (Fixtures.request "/en/menu-item/")
  = ∅.
Proof.
  apply (proj2 (language_paths_keys
                  {| LANGUAGES := []; LANGUAGE_CODE := "en";
                     LANGUAGE_COOKIE_NAME := "django_language" |}
                  (Fixtures.request "/en/menu-item/"))).
  reflexivity.
Defined.

(** X2: one more slash in front of the path or behind it does not change
    the map. *)
Theorem language_paths_ignore_outer_slashes (settings : Settings)
    (request1 request2 : HttpRequest) :
  path_info request2 = "/" +:+ path_info request1
  ∨ path_info request2 = path_info request1 +:+ "/" →
  _language_paths settings request2 = _language_paths settings request1.
Proof.
  intros Hpath. apply map_eq. intros k. rewrite !language_paths_lookup.
  destruct (decide (k ∈ (LANGUAGES settings).*1)); [|done]. do 2 f_equal.
  destruct Hpath as [->| ->].
  - change ("/" +:+ path_info request1) with (String slash (path_info request1)).
    cbn [lstrip]. by rewrite decide_True.
  - change (path_info request1 +:+ "/")
      with (path_info request1 +:+ String slash "").
    destruct (decide (lstrip slash (path_info request1) = "")) as [Hall|Hsome].
    + by rewrite (lstrip_all slash _ Hall), Hall.
    + rewrite lstrip_snoc by done. by apply remainder_snoc.
Qed.

Lemma language_paths_ignore_outer_slashes_witness :
  _language_paths Fixtures.en_fa (Fixtures.request "/en/menu-item/")
  = _language_paths Fixtures.en_fa (Fixtures.request "/en/menu-item").
Proof.
  apply (language_paths_ignore_outer_slashes Fixtures.en_fa
           (Fixtures.request "/en/menu-item") (Fixtures.request "/en/menu-item/")).
  right. reflexivity.
Defined.

Lemma same_url_same_code (r code1 code2 : string) :
  Spec.language_url r code1 = Spec.language_url r code2 → code1 = code2.
Proof.
  unfold Spec.language_url. intros Heq.
  destruct (decide (r = "")).
  - change ("/" +:+ code2 +:+ "/") with (String slash (code2 +:+ "/")) in Heq.
    change ("/" +:+ code1 +:+ "/") with (String slash (code1 +:+ "/")) in Heq.
    injection Heq as Heq. by eapply app_inv_tail.
  - match type of Heq with
    | "/" +:+ code1 +:+ ?t = "/" +:+ code2 +:+ ?t =>
        change ("/" +:+ code1 +:+ t) with (String slash (code1 +:+ t)) in Heq;
        change ("/" +:+ code2 +:+ t) with (String slash (code2 +:+ t)) in Heq
    end.
    injection Heq as Heq. by eapply app_inv_tail.
Qed.

(** X3: two different language codes never get the same URL. *)
Theorem language_urls_distinct (settings : Settings) (request : HttpRequest)
    (code1 code2 url1 url2 : string) :
  code1 ≠ code2 →
  _language_paths settings request !! code1 = Some url1 →
  _language_paths settings request !! code2 = Some url2 →
  url1 ≠ url2.
Proof.
  rewrite !language_paths_lookup. intros Hne.
  destruct (decide (code1 ∈ _)); [|done]. destruct (decide (code2 ∈ _)); [|done].
  intros [= <-] [= <-] Heq. by apply Hne, (same_url_same_code _ _ _ Heq).
Qed.

Lemma language_urls_distinct_witness : "/en/menu-item/" ≠ "/fa/menu-item/".
Proof.
  apply (language_urls_distinct Fixtures.en_fa (Fixtures.request "/en/menu-item/")
           "en" "fa" "/en/menu-item/" "/fa/menu-item/").
  - discriminate.
  - vm_compute. reflexivity.
  - vm_compute. reflexivity.
Defined.

End SwitcherLinks.

(** * The settings record from save to page *)

Module SettingsFlow.

Import Models ContextProcessors Admin SettingsCache.

(** What a resolution on a miss returns and leaves behind. *)
Lemma global_settings_miss (settings : Settings) (request : HttpRequest) (w : World) :
  Cache.get (now w) SITE_SETTINGS_CACHE_KEY (cache w) = None →
  global_settings settings request w
  = (let found :=
       CachedSettings
         (default (SiteSetting.init "Cafe Menu")
            (Orm.first SiteSetting.pk (site_settings w))) in
     ({| ctx_site_settings := found;
         ctx_language_urls := _language_paths settings request |},
      with_cache (Cache.set (now w) SITE_SETTINGS_CACHE_KEY found (60 * 5) (cache w)) w)).
Proof.
  intros Hmiss. unfold global_settings. rewrite Hmiss.
  by destruct (Orm.first SiteSetting.pk (site_settings w)).
Qed.

Lemma first_of_copies {A} (pk : A → option Z) (row : A) (rows : list A) :
  rows ≠ [] → Forall (λ r, r = row) rows → Orm.first pk rows = Some row.
Proof.
  intros Hne Hall. induction Hall as [|r rows -> Hall IH]; [done|]. simpl.
  destruct rows as [|r' rows]; [done|]. rewrite IH by done. by rewrite decide_True.
Qed.

(** Writing over a table whose rows all have the key of the new row
    leaves copies of the new row only. *)
Lemma write_over {A} (pk : A → option Z) (k : Z) (row : A) (rows : list A) :
  Forall (λ r, pk r = Some k) rows →
  Orm.write pk k row rows ≠ [] ∧ Forall (λ r, r = row) (Orm.write pk k row rows).
Proof.
  intros Hall. unfold Orm.write. destruct Hall as [|r rows Hr Hall].
  - split; [done|]. by repeat constructor.
  - assert (∀ r', pk r' = Some k → Orm.has_pk pk k r' = true) as Hpk.
    { intros r' Hr'. unfold Orm.has_pk. by rewrite bool_decide_eq_true_2. }
    cbn [existsb]. rewrite (Hpk r Hr). cbn [orb]. rewrite fmap_cons, (Hpk r Hr).
    split; [done|]. constructor; [done|]. apply Forall_fmap.
    eapply Forall_impl; [exact Hall|]. intros r' Hr'. simpl. by rewrite (Hpk r' Hr').
Qed.

(** X4: for 300 seconds after a resolution on a miss, every resolution
    serves the settings found then and changes nothing, whatever has been
    written to the tables in between without touching the cache. *)
Theorem cached_settings_served (settings : Settings) (request request' : HttpRequest)
    (w w2 : World) :
  Cache.get (now w) SITE_SETTINGS_CACHE_KEY (cache w) = None →
  cache w2 = cache (global_settings settings request w).2 →
  (now w2 < now w + 300)%Z →
  global_settings settings request' w2
  = ({| ctx_site_settings := ctx_site_settings (global_settings settings request w).1;
        ctx_language_urls := _language_paths settings request' |}, w2).
Proof.
  intros Hmiss Hcache Hnow. rewrite (global_settings_miss _ _ _ Hmiss) in *.
  cbn [fst snd ctx_site_settings cache with_cache] in *.
  unfold global_settings. rewrite Hcache. unfold Cache.get, Cache.set.
  rewrite lookup_insert_eq. cbn [Cache.expires_at Cache.value].
  by rewrite (proj2 (Z.ltb_lt _ _)) by lia.
Qed.

Lemma cached_settings_served_witness :
  ctx_site_settings
    (global_settings Fixtures.en_fa (Fixtures.request "/fa/")
       (with_site_settings [Fixtures.house]
          (global_settings Fixtures.en_fa (Fixtures.request "/en/") Fixtures.shop).2)).1
  = CachedSettings (SiteSetting.init "Cafe Menu").
Proof.
  rewrite (cached_settings_served Fixtures.en_fa (Fixtures.request "/en/")
             (Fixtures.request "/fa/") Fixtures.shop
             (with_site_settings [Fixtures.house]
                (global_settings Fixtures.en_fa (Fixtures.request "/en/")
                   Fixtures.shop).2)).
  - reflexivity.
  - reflexivity.
  - reflexivity.
  - reflexivity.
Defined.

(** X5: after [SiteSetting.save], on a table that holds no other record,
    the next resolution returns the record just saved, whatever the cache
    held before. *)
Theorem saved_settings_shown (settings : Settings) (request : HttpRequest)
    (self : SiteSetting.t) (w : World) :
  Forall (λ r, is_Some (SiteSetting.pk self) ∧ SiteSetting.pk r = SiteSetting.pk self)
         (site_settings w) →
  ctx_site_settings (global_settings settings request (SiteSetting_save self w).2).1
  = CachedSettings (SiteSetting_save self w).1.
Proof.
  intros Hrows. rewrite resolve_after_save. f_equal.
  unfold SiteSetting_save, SiteSetting_base_save.
  cbn [fst snd cache_delete with_cache with_site_settings site_settings].
  set (k := default (Orm.next_pk SiteSetting.pk (site_settings w)) (SiteSetting.pk self)).
  set (row := SiteSetting.set_pk k self).
  destruct (write_over SiteSetting.pk k row (site_settings w)) as [Hne Hall].
  { eapply Forall_impl; [exact Hrows|]. intros r [[k' Hk'] ->]. simpl.
    subst k. by rewrite Hk'. }
  by rewrite (first_of_copies _ row _ Hne Hall).
Qed.

Lemma saved_settings_shown_witness :
  ctx_site_settings
    (global_settings Fixtures.en_fa (Fixtures.request "/en/")
       (SiteSetting_save Fixtures.house Fixtures.shop).2).1
  = CachedSettings (SiteSetting_save Fixtures.house Fixtures.shop).1.
Proof.
  apply (saved_settings_shown Fixtures.en_fa (Fixtures.request "/en/")
           Fixtures.house Fixtures.shop).
  constructor.
Defined.

(** X6: after [SiteSetting.delete] of the only record, the next
    resolution returns the "Cafe Menu" placeholder and the table is
    empty. *)
Theorem placeholder_after_delete (settings : Settings) (request : HttpRequest)
    (self : SiteSetting.t) (w : World) :
  is_Some (SiteSetting.pk self) →
  Forall (λ r, SiteSetting.pk r = SiteSetting.pk self) (site_settings w) →
  site_settings (SiteSetting_delete self w).1 = []
  ∧ ctx_site_settings (global_settings settings request (SiteSetting_delete self w).1).1
    = CachedSettings (SiteSetting.init "Cafe Menu").
Proof.
  intros [k Hk] Hrows.
  assert (Orm.remove SiteSetting.pk k (site_settings w) = []) as Hnone.
  { unfold Orm.remove. apply elem_of_nil_inv. intros r [Hr Hin]%list_elem_of_filter.
    rewrite Forall_forall in Hrows. apply Hr. rewrite <-Hk. by apply Hrows. }
  assert (site_settings (SiteSetting_delete self w).1 = []
          ∧ cache (SiteSetting_delete self w).1
            = Cache.delete SITE_SETTINGS_CACHE_KEY (cache w)) as [Hrows' Hcache].
  { unfold SiteSetting_delete. rewrite Hk. simpl. by rewrite Hnone. }
  split; [done|]. rewrite global_settings_miss.
  - cbn [fst ctx_site_settings]. by rewrite Hrows'.
  - rewrite Hcache. apply get_after_delete.
Qed.

Lemma placeholder_after_delete_witness :
  ctx_site_settings
    (global_settings Fixtures.en_fa (Fixtures.request "/en/")
       (SiteSetting_delete Fixtures.house
          (with_site_settings [Fixtures.house] Fixtures.shop)).1).1
  = CachedSettings (SiteSetting.init "Cafe Menu").
Proof.
  apply (placeholder_after_delete Fixtures.en_fa (Fixtures.request "/en/")
           Fixtures.house (with_site_settings [Fixtures.house] Fixtures.shop)).
  - by eexists.
  - repeat constructor.
Defined.

Lemma write_length_existing {A} (pk : A → option Z) (k : Z) (row : A) (rows : list A) :
  existsb (Orm.has_pk pk k) rows = true →
  length (Orm.write pk k row rows) = length rows.
Proof. intros Hex. unfold Orm.write. rewrite Hex. apply length_fmap. Qed.

(** X7: the settings table never holds more than one record as long as a
    record is added only where [has_add_permission] allows it; changing a
    stored record and deleting one keep the bound, and once a record
    exists the add action is refused for every request. *)
Theorem singleton_kept (request : HttpRequest) (self : SiteSetting.t) (w : World) :
  (length (site_settings w) ≤ 1)%nat →
  (has_add_permission request w = true →
   length (site_settings (SiteSetting_save self w).2) = 1
   ∧ ∀ request', has_add_permission request' (SiteSetting_save self w).2 = false)
  ∧ ((∃ k, SiteSetting.pk self = Some k
           ∧ existsb (Orm.has_pk SiteSetting.pk k) (site_settings w) = true) →
     length (site_settings (SiteSetting_save self w).2) = length (site_settings w))
  ∧ (length (site_settings (SiteSetting_delete self w).1) ≤ 1)%nat.
Proof.
  intros Hone. split; [|split].
  - unfold has_add_permission. destruct (site_settings w) as [|r rows] eqn:Hrows; [|done].
    intros _. unfold SiteSetting_save, SiteSetting_base_save.
    cbn [fst snd cache_delete with_cache with_site_settings site_settings].
    by rewrite Hrows.
  - intros (k & Hk & Hex). unfold SiteSetting_save, SiteSetting_base_save.
    cbn [fst snd cache_delete with_cache with_site_settings site_settings].
    rewrite Hk. by apply write_length_existing.
  - unfold SiteSetting_delete. destruct (SiteSetting.pk self) as [k|]; [|done].
    cbn [fst cache_delete with_cache with_site_settings site_settings].
    unfold Orm.remove. etrans; [apply length_filter|done].
Qed.

Lemma singleton_kept_witness :
  length (site_settings
            (SiteSetting_save (SiteSetting.init "Anes Cafe")
               (with_site_settings [] Fixtures.shop)).2) = 1.
Proof.
  apply (proj1 (singleton_kept
                  {| path_info := "/en/admin/"; COOKIES := ∅;
                     request_LANGUAGE_CODE := None;
                     user := {| is_active_user := true; is_superuser := true;
                                all_permissions := ∅ |} |}
                  (SiteSetting.init "Anes Cafe")
                  (with_site_settings [] Fixtures.shop) (le_S _ _ (le_n 0)))).
  reflexivity.
Defined.

End SettingsFlow.

(** * Languages and the derived properties of the models *)

Module Languages.

Import Models Translation.

(** [translate] with the active language and its primary subtag spelled
    out. *)
Lemma translate_unfold `{TranslatableFieldsMixin A} (active : option string)
    (self : A) (field_prefix : string) :
  translate active self field_prefix
  = py_or (default PyNone
             (getattr self (field_prefix +:+ "_"
                            +:+ Spec.primary_subtag (Spec.active_language active))))
          (default (PyStr "") (getattr self (field_prefix +:+ "_en"))).
Proof. unfold translate. by rewrite get_language_or_en, split_head_primary_subtag. Qed.

Lemma primary_subtag_app (l rest : string) :
  Py.hyphen ∉ String.list_ascii_of_string l →
  Spec.primary_subtag (l +:+ String Py.hyphen rest) = l.
Proof.
  intros Hl. rewrite <-split_head_primary_subtag. unfold Py.split_head.
  by rewrite PyFacts.cut_app.
Qed.

Lemma primary_subtag_id (l : string) :
  Py.hyphen ∉ String.list_ascii_of_string l → Spec.primary_subtag l = l.
Proof.
  induction l as [|a l IH]; [done|]. cbn [Spec.primary_subtag String.list_ascii_of_string].
  intros Hl. rewrite decide_False by (intros ->; apply Hl; by left).
  rewrite IH; [done|]. intros ?. apply Hl. by right.
Qed.

(** X8: a regional variant of a language is served like the language
    itself: [fa-IR] like [fa], [en-US] like [en]. *)
Theorem translate_ignores_region `{TranslatableFieldsMixin A} (l region : string)
    (self : A) (field_prefix : string) :
  l ≠ "" → Py.hyphen ∉ String.list_ascii_of_string l →
  translate (Some (l +:+ "-" +:+ region)) self field_prefix
  = translate (Some l) self field_prefix.
Proof.
  intros Hne Hl. rewrite !translate_unfold.
  assert (Spec.active_language (Some (l +:+ "-" +:+ region)) = l +:+ String Py.hyphen region)
    as ->.
  { destruct l as [|a l]; [done|]. by rewrite PyFacts.app_cons. }
  assert (Spec.active_language (Some l) = l) as -> by (by destruct l).
  by rewrite primary_subtag_app, primary_subtag_id.
Qed.

Lemma translate_ignores_region_witness :
  MenuCategory.title (Some "fa-IR") Fixtures.coffee
  = MenuCategory.title (Some "fa") Fixtures.coffee.
Proof.
  apply (translate_ignores_region "fa" "IR" Fixtures.coffee "title").
  - discriminate.
  - intros Hin. not_listed Hin.
Defined.

(** A family with an English and a Persian field and nothing else. *)
Lemma translate_en_fa `{TranslatableFieldsMixin A} (self : A) (field_prefix en fa : string)
    (active : option string) :
  (∀ lang, getattr self (field_prefix +:+ "_" +:+ lang)
           = if decide (lang = "en") then Some (PyStr en)
             else if decide (lang = "fa") then Some (PyStr fa) else None) →
  translate active self field_prefix
  = PyStr (if decide (Spec.primary_subtag (Spec.active_language active) = "fa" ∧ fa ≠ "")
           then fa else en).
Proof.
  intros Hfields. rewrite translate_unfold.
  change (field_prefix +:+ "_en") with (field_prefix +:+ "_" +:+ "en").
  rewrite !Hfields. rewrite (decide_True (P := "en" = "en")) by done. simpl.
  destruct (decide (_ = "en")) as [Hen|Hen]; simpl.
  - rewrite decide_False by (intros [Hfa _]; congruence).
    unfold py_or, truthy, Py.truthy. by destruct (bool_decide (en ≠ "")).
  - destruct (decide (_ = "fa")) as [Hfa|Hfa]; simpl.
    + unfold py_or, truthy, Py.truthy. destruct (decide (fa = "")) as [->|Hset].
      * rewrite decide_False by (by intros [_ ?]). done.
      * rewrite bool_decide_eq_true_2 by done. by rewrite decide_True.
    + rewrite decide_False by (by intros [? _]). done.
Qed.

(** Looks a field name of the form [prefix_lang] up in the fields of a
    model. *)
Ltac lookup_family :=
  intros lang; unfold getattr, SiteSetting.translatable, MenuCategory.translatable,
    MenuItem.translatable;
  repeat match goal with
         | |- context [decide (?p +:+ ?q = ?name)] =>
             destruct (decide (p +:+ q = name)) as [Heq|?];
             [cbv [String.append] in Heq; simplify_eq; done|]
         end;
  repeat match goal with
         | |- context [decide (lang = ?name)] =>
             destruct (decide (lang = name)) as [->|?]; [done|]
         end;
  done.

Lemma category_title_family (c : MenuCategory.t) (lang : string) :
  getattr c ("title" +:+ "_" +:+ lang)
  = if decide (lang = "en") then Some (PyStr (MenuCategory.title_en c))
    else if decide (lang = "fa") then Some (PyStr (MenuCategory.title_fa c)) else None.
Proof. revert lang. lookup_family. Qed.

Lemma category_description_family (c : MenuCategory.t) (lang : string) :
  getattr c ("description" +:+ "_" +:+ lang)
  = if decide (lang = "en") then Some (PyStr (MenuCategory.description_en c))
    else if decide (lang = "fa") then Some (PyStr (MenuCategory.description_fa c)) else None.
Proof. revert lang. lookup_family. Qed.

Lemma item_name_family (i : MenuItem.t) (lang : string) :
  getattr i ("name" +:+ "_" +:+ lang)
  = if decide (lang = "en") then Some (PyStr (MenuItem.name_en i))
    else if decide (lang = "fa") then Some (PyStr (MenuItem.name_fa i)) else None.
Proof. revert lang. lookup_family. Qed.

Lemma item_description_family (i : MenuItem.t) (lang : string) :
  getattr i ("description" +:+ "_" +:+ lang)
  = if decide (lang = "en") then Some (PyStr (MenuItem.description_en i))
    else if decide (lang = "fa") then Some (PyStr (MenuItem.description_fa i)) else None.
Proof. revert lang. lookup_family. Qed.

Lemma item_badge_family (i : MenuItem.t) (lang : string) :
  getattr i ("highlight_badge" +:+ "_" +:+ lang)
  = if decide (lang = "en") then Some (PyStr (MenuItem.highlight_badge_en i))
    else if decide (lang = "fa") then Some (PyStr (MenuItem.highlight_badge_fa i)) else None.
Proof. revert lang. lookup_family. Qed.

Lemma site_name_family (s : SiteSetting.t) (lang : string) :
  getattr s ("site_name" +:+ "_" +:+ lang)
  = if decide (lang = "en") then Some (PyStr (SiteSetting.site_name_en s))
    else if decide (lang = "fa") then Some (PyStr (SiteSetting.site_name_fa s)) else None.
Proof. revert lang. lookup_family. Qed.

Lemma hero_headline_family (s : SiteSetting.t) (lang : string) :
  getattr s ("hero_headline" +:+ "_" +:+ lang)
  = if decide (lang = "en") then Some (PyStr (SiteSetting.hero_headline_en s))
    else if decide (lang = "fa") then Some (PyStr (SiteSetting.hero_headline_fa s)) else None.
Proof. revert lang. lookup_family. Qed.

(** X9: the derived properties of categories and items show the Persian
    field only when Persian is the active language and the field is
    filled; in every other case, including a language that has no field
    of its own, they show the English field. *)
Theorem model_properties_en_fa (active : option string) (c : MenuCategory.t)
    (i : MenuItem.t) :
  let persian (fa : string) :=
    Spec.primary_subtag (Spec.active_language active) = "fa" ∧ fa ≠ "" in
  MenuCategory.title active c
  = PyStr (if decide (persian (MenuCategory.title_fa c))
           then MenuCategory.title_fa c else MenuCategory.title_en c)
  ∧ MenuCategory.description active c
    = PyStr (if decide (persian (MenuCategory.description_fa c))
             then MenuCategory.description_fa c else MenuCategory.description_en c)
  ∧ MenuItem.name active i
    = PyStr (if decide (persian (MenuItem.name_fa i))
             then MenuItem.name_fa i else MenuItem.name_en i)
  ∧ MenuItem.description active i
    = PyStr (if decide (persian (MenuItem.description_fa i))
             then MenuItem.description_fa i else MenuItem.description_en i)
  ∧ MenuItem.highlight_badge active i
    = PyStr (if decide (persian (MenuItem.highlight_badge_fa i))
             then MenuItem.highlight_badge_fa i else MenuItem.highlight_badge_en i).
Proof.
  cbv zeta. repeat split.
  - apply translate_en_fa, category_title_family.
  - apply translate_en_fa, category_description_family.
  - apply translate_en_fa, item_name_family.
  - apply translate_en_fa, item_description_family.
  - apply translate_en_fa, item_badge_family.
Qed.

(** X10: a settings record with an English site name always has a site
    name and a hero headline to show, whatever the active language and
    whatever else is filled in. *)
Theorem site_name_and_headline_shown (active : option string) (s : SiteSetting.t) :
  SiteSetting.site_name_en s ≠ "" →
  (∃ name, SiteSetting.site_name active s = PyStr name ∧ name ≠ "")
  ∧ (∃ headline, SiteSetting.hero_headline active s = PyStr headline ∧ headline ≠ "").
Proof.
  intros Hname.
  assert (∃ name, SiteSetting.site_name active s = PyStr name ∧ name ≠ "")
    as (name & Hsite & Hne).
  { unfold SiteSetting.site_name.
    rewrite (translate_en_fa s "site_name" _ _ active (site_name_family s)).
    unfold py_or, truthy, Py.truthy.
    destruct (decide (_ ∧ _)) as [[_ Hfa]|_].
    - rewrite bool_decide_eq_true_2 by done. eauto.
    - rewrite bool_decide_eq_true_2 by done. eauto. }
  split; [by eauto|].
  unfold SiteSetting.hero_headline, SiteSetting.localized_value. rewrite Hsite.
  rewrite (translate_en_fa s "hero_headline" _ _ active (hero_headline_family s)).
  unfold py_or, truthy, Py.truthy.
  match goal with |- context [bool_decide (?x ≠ "")] => destruct (decide (x = "")) as [Hx|Hx] end.
  - rewrite Hx. rewrite bool_decide_eq_false_2 by (by intros ?). eauto.
  - rewrite bool_decide_eq_true_2 by done. eauto.
Qed.

Lemma site_name_and_headline_shown_witness :
  (∃ name, SiteSetting.site_name (Some "fa") Fixtures.house = PyStr name ∧ name ≠ "")
  ∧ (∃ headline,
        SiteSetting.hero_headline (Some "fa") Fixtures.house = PyStr headline
        ∧ headline ≠ "").
Proof. apply (site_name_and_headline_shown (Some "fa") Fixtures.house). discriminate. Defined.

End Languages.

(** * The menu on the home page *)

Module Menu.

Import Models Views HomePage.

(** The categories of the context, as [attach] builds them. *)
Lemma fetched_shape (settings : Settings) (request : HttpRequest) (w : World)
    (f : Fetched) :
  f ∈ ctx_categories (get_context_data settings request w) →
  category f ∈ active_categories w
  ∧ items_all f
    = filter (λ i, Some (MenuItem.category_id i) = MenuCategory.pk (category f))
             (prefetch_items (active_categories w) w).
Proof.
  cbn [get_context_data ctx_categories]. unfold attach.
  intros (c & -> & Hc)%list_elem_of_fmap. by split.
Qed.


(** The rows of a fetched category, by membership. *)
Lemma elem_of_items_all (settings : Settings) (request : HttpRequest) (w : World)
    (f : Fetched) (i : MenuItem.t) :
  f ∈ ctx_categories (get_context_data settings request w) →
  i ∈ items_all f
  ↔ i ∈ items w ∧ MenuItem.is_available i = true
    ∧ Some (MenuItem.category_id i) = MenuCategory.pk (category f).
Proof.
  intros Hf. destruct (fetched_shape _ _ _ _ Hf) as [Hc ->].
  destruct (attached_items_spec w _ _ Hc) as [Hperm _].
  rewrite Hperm, list_elem_of_filter. tauto.
Qed.

Lemma elem_of_signature_items (settings : Settings) (request : HttpRequest) (w : World)
    (i : MenuItem.t) :
  i ∈ ctx_signature_items (get_context_data settings request w) →
  MenuItem.is_signature i = true
  ∧ ∃ f, f ∈ ctx_categories (get_context_data settings request w) ∧ i ∈ items_all f.
Proof.
  cbn [get_context_data ctx_signature_items]. unfold islice.
  intros Hi%subseteq_take. apply list_elem_of_bind in Hi as (f & Hi & Hf).
  apply list_elem_of_filter in Hi as [Hsig Hi]. eauto.
Qed.

(** X11: every signature item of the context is a signature row of the
    table that is available and belongs to an active category, and it is
    also listed under that category. *)
Theorem signature_items_sound (settings : Settings) (request : HttpRequest) (w : World) :
  let ctx := get_context_data settings request w in
  Forall (λ i,
            i ∈ items w
            ∧ MenuItem.is_signature i = true
            ∧ MenuItem.is_available i = true
            ∧ ∃ f, f ∈ ctx_categories ctx
                   ∧ i ∈ items_all f
                   ∧ MenuCategory.is_active (category f) = true
                   ∧ MenuCategory.pk (category f) = Some (MenuItem.category_id i))
         (ctx_signature_items ctx).
Proof.
  cbv zeta. rewrite Forall_forall. intros i Hi.
  destruct (elem_of_signature_items _ _ _ _ Hi) as (Hsig & f & Hf & Hin).
  pose proof (proj1 (elem_of_items_all _ _ _ _ _ Hf) Hin) as (Hrow & Havail & Hcat).
  repeat split; try done. exists f. repeat split; try done.
  destruct (fetched_shape _ _ _ _ Hf) as [Hc _].
  destruct (active_categories_spec w) as [Hperm _]. rewrite Hperm in Hc.
  by apply list_elem_of_filter in Hc as [? _].
Qed.

(** X12: [language_selected] is true exactly when the request carries a
    non-empty language cookie, or names a language whose primary subtag
    differs from that of the default language; regional variants of the
    default language do not count as a choice. *)
Theorem language_selected_spec (settings : Settings) (request : HttpRequest) (w : World) :
  ctx_language_selected (get_context_data settings request w) = true
  ↔ (∃ v, COOKIES request !! LANGUAGE_COOKIE_NAME settings = Some v ∧ v ≠ "")
    ∨ (∃ l, request_LANGUAGE_CODE request = Some l ∧ l ≠ ""
            ∧ Spec.primary_subtag l ≠ Spec.primary_subtag (LANGUAGE_CODE settings)).
Proof.
  cbn [get_context_data ctx_language_selected].
  rewrite !Translation.split_head_primary_subtag.
  rewrite orb_true_iff, andb_true_iff, !PyFacts.truthy_true, bool_decide_eq_true.
  split.
  - intros [Hcookie|[Hlang Hsub]].
    + left. destruct (COOKIES request !! _) as [v|]; [by exists v|done].
    + right. destruct (request_LANGUAGE_CODE request) as [l|]; [by exists l|done].
  - intros [(v & -> & Hv)|(l & -> & Hl & Hsub)]; [by left|by right].
Qed.

Section saved.
Variable slugify : string → string.


End saved.


(** X14: after a category has been deleted, the home page shows neither
    a category with its key nor any item that belonged to it. *)
Theorem deleted_category_gone (settings : Settings) (request : HttpRequest)
    (self : MenuCategory.t) (k : Z) (w : World) :
  MenuCategory.pk self = Some k →
  let ctx := get_context_data settings request (MenuCategory_delete self w).1 in
  Forall (λ f, MenuCategory.pk (category f) ≠ Some k
               ∧ Forall (λ i, MenuItem.category_id i ≠ k) (items_all f))
         (ctx_categories ctx)
  ∧ Forall (λ i, MenuItem.category_id i ≠ k) (ctx_signature_items ctx).
Proof.
  intros Hk ctx. subst ctx.
  set (w' := (MenuCategory_delete self w).1).
  assert (items w' = filter (λ i, MenuItem.category_id i ≠ k) (items w)
          ∧ categories w' = Orm.remove MenuCategory.pk k (categories w)) as [Hitems Hcats].
  { subst w'. unfold MenuCategory_delete. by rewrite Hk. }
  assert (∀ f i, f ∈ ctx_categories (get_context_data settings request w') →
                 i ∈ items_all f → MenuItem.category_id i ≠ k) as Hno.
  { intros f i Hf Hi. apply (elem_of_items_all settings request w' f i Hf) in Hi as [Hi _].
    rewrite Hitems in Hi. by apply list_elem_of_filter in Hi as [? _]. }
  split.
  - rewrite Forall_forall. intros f Hf. split.
    + destruct (fetched_shape _ _ _ _ Hf) as [Hc _].
      destruct (active_categories_spec w') as [Hperm _]. rewrite Hperm in Hc.
      apply list_elem_of_filter in Hc as [_ Hc]. rewrite Hcats in Hc.
      unfold Orm.remove in Hc. by apply list_elem_of_filter in Hc as [? _].
    + rewrite Forall_forall. intros i Hi. by eapply Hno.
  - rewrite Forall_forall. intros i Hi.
    destruct (elem_of_signature_items _ _ _ _ Hi) as (_ & f & Hf & Hin). by eapply Hno.
Qed.

Lemma deleted_category_gone_witness :
  Forall (λ i, MenuItem.category_id i ≠ 1%Z)
    (ctx_signature_items
       (get_context_data Fixtures.en_fa (Fixtures.request "/en/")
          (MenuCategory_delete Fixtures.coffee Fixtures.shop).1)).
Proof.
  apply (deleted_category_gone Fixtures.en_fa (Fixtures.request "/en/")
           Fixtures.coffee 1 Fixtures.shop).
  reflexivity.
Defined.

(** X15: when the rows of the item table are distinct and the category
    keys are distinct, no item is listed twice on the home page, neither
    under the categories nor among the signature items. *)
Theorem no_item_listed_twice (settings : Settings) (request : HttpRequest) (w : World) :
  NoDup (items w) → NoDup (MenuCategory.pk <$> categories w) →
  let ctx := get_context_data settings request w in
  NoDup (concat (items_all <$> ctx_categories ctx))
  ∧ NoDup (ctx_signature_items ctx).
Proof.
  intros Hitems Hkeys.
  assert (NoDup (concat (items_all <$> ctx_categories
                                         (get_context_data settings request w)))) as Hall.
  { cbn [get_context_data ctx_categories].
    destruct (active_categories_spec w) as [Hperm _].
    rewrite attached_items_all.
    - apply NoDup_filter. unfold prefetch_items.
      rewrite merge_sort_Permutation. by apply NoDup_filter.
    - rewrite Hperm. eapply sublist_NoDup; [exact Hkeys|].
      apply fmap_sublist, sublist_filter. }
  split; [done|].
  cbn [get_context_data ctx_signature_items]. rewrite islice_signature.
  unfold Spec.signature_items. eapply sublist_NoDup; [|apply sublist_take].
  by apply NoDup_filter.
Qed.

Lemma no_item_listed_twice_witness :
  NoDup (ctx_signature_items
           (get_context_data Fixtures.en_fa (Fixtures.request "/en/") Fixtures.festival)).
Proof.
  apply (no_item_listed_twice Fixtures.en_fa (Fixtures.request "/en/") Fixtures.festival).
  - apply (bool_decide_unpack _). vm_compute. exact I.
  - apply (bool_decide_unpack _). vm_compute. exact I.
Defined.

End Menu.

(** * What saving and deleting keep *)

Module Store.

Import Models Integrity.
Local Open Scope Z_scope.

(** The key handed to a new row is above every key of the table. *)
Lemma next_pk_above {A} (pk : A → option Z) (rows : list A) (r : A) (k : Z) :
  r ∈ rows → pk r = Some k → k < Orm.next_pk pk rows.
Proof.
  unfold Orm.next_pk. induction rows as [|x rows IH]; [by intros ?%elem_of_nil|].
  intros [->|Hin]%elem_of_cons Hk; cbn [omap list_omap].
  - rewrite Hk. simpl. lia.
  - specialize (IH Hin Hk). destruct (pk x); simpl; lia.
Qed.

Lemma next_pk_fresh {A} (pk : A → option Z) (rows : list A) :
  existsb (Orm.has_pk pk (Orm.next_pk pk rows)) rows = false.
Proof.
  apply not_true_iff_false. intros (r & Hr & Hk)%existsb_exists.
  apply list_elem_of_In in Hr. unfold Orm.has_pk in Hk.
  apply bool_decide_eq_true in Hk. pose proof (next_pk_above pk rows r _ Hr Hk). lia.
Qed.

Lemma has_pk_true {A} (pk : A → option Z) (k : Z) (r : A) :
  Orm.has_pk pk k r = true ↔ pk r = Some k.
Proof. unfold Orm.has_pk. apply bool_decide_eq_true. Qed.

Lemma has_pk_false {A} (pk : A → option Z) (k : Z) (r : A) :
  Orm.has_pk pk k r = false ↔ pk r ≠ Some k.
Proof. unfold Orm.has_pk. apply bool_decide_eq_false. Qed.

Lemma existsb_false {A} (p : A → bool) (l : list A) :
  existsb p l = false ↔ Forall (λ x, p x = false) l.
Proof.
  induction l as [|x l IH]; simpl; [by split|].
  rewrite orb_false_iff, IH. split.
  - intros [? ?]. by constructor.
  - by inv 1.
Qed.

(** Writing a row under its own key keeps every key of the table. *)
Lemma write_keeps_keys {A} (pk : A → option Z) (k j : Z) (row : A) (rows : list A) :
  pk row = Some k →
  existsb (Orm.has_pk pk j) rows = true →
  existsb (Orm.has_pk pk j) (Orm.write pk k row rows) = true.
Proof.
  intros Hrow (r & Hr & Hj)%existsb_exists. unfold Orm.write.
  destruct (existsb (Orm.has_pk pk k) rows).
  - apply existsb_exists.
    exists (if Orm.has_pk pk k r then row else r). split.
    + apply list_elem_of_In, list_elem_of_fmap. exists r.
      split; [done|]. by apply list_elem_of_In.
    + destruct (Orm.has_pk pk k r) eqn:Hk; [|done].
      apply has_pk_true in Hk, Hj. apply has_pk_true. congruence.
  - apply existsb_exists. exists r. split; [|done].
    apply list_elem_of_In, elem_of_app. left. by apply list_elem_of_In.
Qed.

Lemma Forall_write {A} (P : A → Prop) (pk : A → option Z) (k : Z) (row : A)
    (rows : list A) :
  P row → Forall P rows → Forall P (Orm.write pk k row rows).
Proof.
  intros Hrow Hrows. unfold Orm.write. destruct (existsb _ rows).
  - apply Forall_fmap. eapply Forall_impl; [exact Hrows|].
    intros r Hr. simpl. by destruct (Orm.has_pk pk k r).
  - apply Forall_app. split; [done|]. by repeat constructor.
Qed.

Lemma write_keys {A} (pk : A → option Z) (k : Z) (row : A) (rows : list A) :
  pk row = Some k →
  pk <$> Orm.write pk k row rows
  = if existsb (Orm.has_pk pk k) rows then pk <$> rows
    else ((pk <$> rows) ++ [Some k])%list.
Proof.
  intros Hrow. unfold Orm.write. destruct (existsb _ rows).
  - rewrite <-list_fmap_compose. apply list_fmap_ext. intros _ r _. simpl.
    destruct (Orm.has_pk pk k r) eqn:Hk; [|done]. apply has_pk_true in Hk. congruence.
  - by rewrite fmap_app, <-Hrow.
Qed.

(** Replacing the row of key [k] by a row whose slug no other row holds
    keeps the slugs distinct. *)
Lemma replace_keeps_slugs (k : Z) (row : MenuItem.t) (rows : list MenuItem.t) :
  NoDup (MenuItem.pk <$> rows) →
  NoDup (MenuItem.slug <$> rows) →
  Forall (λ r, MenuItem.slug r = MenuItem.slug row → MenuItem.pk r = Some k) rows →
  NoDup (MenuItem.slug <$> ((λ r, if Orm.has_pk MenuItem.pk k r then row else r) <$> rows)).
Proof.
  induction rows as [|r rows IH]; [constructor|].
  rewrite !fmap_cons, !NoDup_cons. intros [Hpk Hpks] [Hslug Hslugs] Hrows.
  apply Forall_cons in Hrows as [Hr Hrows]. split; [|by apply IH].
  intros Hin. apply list_elem_of_fmap in Hin as (x & Hx & Hin).
  apply list_elem_of_fmap in Hin as (y & -> & Hy).
  rewrite Forall_forall in Hrows.
  destruct (Orm.has_pk MenuItem.pk k r) eqn:Hkr, (Orm.has_pk MenuItem.pk k y) eqn:Hky.
  - apply has_pk_true in Hkr, Hky. apply Hpk. rewrite Hkr, <-Hky.
    by apply list_elem_of_fmap_2.
  - apply has_pk_false in Hky. apply Hky, Hrows; done.
  - apply has_pk_false in Hkr. by apply Hkr, Hr.
  - apply Hslug. rewrite Hx. by apply list_elem_of_fmap_2.
Qed.

Section save.
Variable slugify : string → string.

(** [save], case by case. *)
Lemma save_cases (self : MenuItem.t) (w : World) :
  let self' := MenuItem.set_slug (slug_to_save slugify self) self in
  let k := default (Orm.next_pk MenuItem.pk (items w)) (MenuItem.pk self) in
  MenuItem_save slugify self w
  = if negb (existsb (Orm.has_pk MenuCategory.pk (MenuItem.category_id self)) (categories w))
    then (if decide (MenuItem.slug self = "") then self' else self, w,
          Orm.IntegrityError "category_id")
    else if existsb (λ r, bool_decide (MenuItem.slug r = slug_to_save slugify self)
                          && negb (Orm.has_pk MenuItem.pk k r)) (items w)
    then (if decide (MenuItem.slug self = "") then self' else self, w,
          Orm.IntegrityError "slug")
    else (MenuItem.stored k (now w) self',
          with_items (Orm.write MenuItem.pk k (MenuItem.stored k (now w) self') (items w)) w,
          Orm.Saved).
Proof.
  unfold MenuItem_save, MenuItem_base_save, slug_to_save, Py.truthy.
  destruct (decide (MenuItem.slug self = "")) as [Hs|Hs].
  - rewrite bool_decide_eq_false_2 by (by intros ?). simpl. by case_ifs.
  - rewrite bool_decide_eq_true_2 by done. simpl.
    assert (MenuItem.set_slug (MenuItem.slug self) self = self) as -> by (by destruct self).
    by case_ifs.
Qed.



(** X18: the foreign keys stay valid. If every item names a stored
    category, this still holds after any save or delete of an item or a
    category; deleting a category takes its items with it. *)
Theorem referential_kept (item : MenuItem.t) (category : MenuCategory.t) (w : World) :
  referential w →
  referential (MenuItem_save slugify item w).1.2
  ∧ referential (MenuItem_delete item w).1
  ∧ referential (MenuCategory_save category w).2
  ∧ referential (MenuCategory_delete category w).1.
Proof.
  unfold referential. intros Href. repeat split.
  - rewrite save_cases. cbv zeta.
    destruct (existsb (Orm.has_pk MenuCategory.pk (MenuItem.category_id item))
                (categories w)) eqn:Hcat; cbn [negb]; [|done].
    destruct (existsb _ (items w)); [done|].
    cbn [fst snd items categories with_items]. apply Forall_write; [|done].
    by destruct item.
  - unfold MenuItem_delete. destruct (MenuItem.pk item); [|done].
    cbn [fst items categories with_items]. unfold Orm.remove.
    rewrite Forall_forall in Href |- *. intros i [_ Hi]%list_elem_of_filter. by apply Href.
  - unfold MenuCategory_save. cbn [snd items categories with_categories].
    eapply Forall_impl; [exact Href|]. intros i Hi. simpl. by apply write_keeps_keys.
  - unfold MenuCategory_delete. destruct (MenuCategory.pk category) as [k|]; [|done].
    cbn [fst items categories with_items with_categories].
    rewrite Forall_forall in Href |- *. intros i [Hk Hi]%list_elem_of_filter.
    destruct (proj1 (existsb_exists _ _) (Href i Hi)) as (c & Hc & Hpk).
    apply existsb_exists. exists c. split; [|done].
    apply list_elem_of_In. unfold Orm.remove. apply list_elem_of_filter.
    split; [|by apply list_elem_of_In].
    apply has_pk_true in Hpk. rewrite Hpk. by intros [= ?].
Qed.

(** X19: item rows keep their keys and stay distinct. If every stored
    item has a key and no two share a key or a slug, this still holds
    after [MenuItem.save] and after deleting an item. *)
Theorem well_keyed_kept (self : MenuItem.t) (w : World) :
  well_keyed w →
  well_keyed (MenuItem_save slugify self w).1.2
  ∧ well_keyed (MenuItem_delete self w).1.
Proof.
  unfold well_keyed. intros (Hsome & Hpks & Hslugs). split.
  - rewrite save_cases. cbv zeta.
    destruct (negb _); [done|].
    set (k := default (Orm.next_pk MenuItem.pk (items w)) (MenuItem.pk self)).
    set (row := MenuItem.stored k (now w) _).
    destruct (existsb _ (items w)) eqn:Hunique; [done|].
    cbn [fst snd items with_items].
    assert (Forall (λ r, MenuItem.slug r = MenuItem.slug row → MenuItem.pk r = Some k)
              (items w)) as Hfree.
    { apply existsb_false in Hunique. eapply Forall_impl; [exact Hunique|].
      intros r Hr Heq. simpl in Hr. apply has_pk_true.
      rewrite bool_decide_eq_true_2 in Hr by done. by apply negb_false_iff in Hr. }
    split; [by apply Forall_write|].
    split; [rewrite (write_keys MenuItem.pk k row) by done|];
      unfold Orm.write; destruct (existsb (Orm.has_pk MenuItem.pk k) (items w)) eqn:Hk.
    + done.
    + apply NoDup_app. repeat split; [done| |apply NoDup_singleton].
      intros x Hx ->%list_elem_of_singleton.
      apply list_elem_of_fmap in Hx as (r & Hr & Hin).
      apply existsb_false in Hk. rewrite Forall_forall in Hk.
      specialize (Hk r Hin). by apply has_pk_false in Hk.
    + by apply replace_keeps_slugs.
    + rewrite fmap_app. apply NoDup_app. repeat split; [done| |apply NoDup_singleton].
      intros x Hx ->%list_elem_of_singleton.
      apply list_elem_of_fmap in Hx as (r & Hr & Hin).
      rewrite Forall_forall in Hfree. specialize (Hfree r Hin (eq_sym Hr)).
      apply existsb_false in Hk. rewrite Forall_forall in Hk.
      specialize (Hk r Hin). by apply has_pk_false in Hk.
  - unfold MenuItem_delete. destruct (MenuItem.pk self) as [k|]; [|done].
    cbn [fst items with_items]. unfold Orm.remove. repeat split.
    + rewrite Forall_forall in Hsome |- *. intros i [_ Hi]%list_elem_of_filter.
      by apply Hsome.
    + eapply sublist_NoDup; [exact Hpks|]. apply fmap_sublist, sublist_filter.
    + eapply sublist_NoDup; [exact Hslugs|]. apply fmap_sublist, sublist_filter.
Qed.

End save.

Lemma well_keyed_kept_witness :
  well_keyed (MenuItem_save Text.slugify Fixtures.refill Fixtures.shop).1.2.
Proof.
  apply (well_keyed_kept Text.slugify Fixtures.refill Fixtures.shop).
  apply (bool_decide_unpack _). vm_compute. exact I.
Defined.

Lemma referential_kept_witness :
  referential (MenuCategory_delete Fixtures.coffee Fixtures.shop).1.
Proof.
  apply (referential_kept Text.slugify Fixtures.refill Fixtures.coffee Fixtures.shop).
  apply (bool_decide_unpack _). vm_compute. exact I.
Defined.


End Store.

(** * Prices and their display *)

Module Prices.

Import Dec Validators Models Pricing DecFacts Validation PyFacts.
Local Open Scope Z_scope.

(** ** Digit counts *)

Lemma of_lu_bound (d : Corelib.Init.Decimal.uint) :
  (DecimalPos.Unsigned.of_lu d < 10 ^ N.of_nat (Corelib.Init.Decimal.nb_digits d))%N.
Proof.
  induction d; cbn [DecimalPos.Unsigned.of_lu Corelib.Init.Decimal.nb_digits];
    rewrite ?Nat2N.inj_succ, ?N.pow_succ_r'; lia.
Qed.

(** A coefficient is below the power of ten of its digit count. *)
Lemma num_digits_bound (z : Z) : Z.abs z < 10 ^ num_digits z.
Proof.
  assert (∀ p, Z.pos p < 10 ^ Z.of_nat (Corelib.Init.Decimal.nb_digits (Pos.to_uint p)))
    as Hpos.
  { intros p.
    pose proof (of_lu_bound (Corelib.Init.Decimal.rev (Pos.to_uint p))) as Hb.
    rewrite <-DecimalPos.Unsigned.of_uint_alt, DecimalPos.Unsigned.of_to,
      DecimalFacts.nb_digits_rev in Hb.
    apply N2Z.inj_lt in Hb. rewrite N2Z.inj_pow, nat_N_Z in Hb. exact Hb. }
  destruct z as [|p|p]; simpl; [lia|apply Hpos..].
Qed.

Lemma num_digits_pos (z : Z) : 0 < num_digits z.
Proof.
  destruct z as [|p|p]; simpl; [lia| |];
    pose proof (DecimalPos.Unsigned.to_uint_nonnil p) as Hn;
    destruct (Corelib.Init.Decimal.nb_digits (Pos.to_uint p)) eqn:Hd;
    try lia; by apply DecimalFacts.nb_digits_0 in Hd.
Qed.

(** ** What the validators of [price] let through *)

Ltac case_ltb :=
  repeat match goal with
    | |- context [if (?x <? ?y) then _ else _] => destruct (Z.ltb_spec x y)
    end.

Lemma clean_price (self : MenuItem.t) (w : World) :
  MenuItem_full_clean self w = [] →
  ltb (MenuItem.price self) d0_00 = false
  ∧ check_decimal (DecimalValidator 8 2) (MenuItem.price self) = None.
Proof.
  intros Hclean.
  assert (run_validators "price" MenuItem.price_validators (MenuItem.price self) = [])
    as Hrun.
  { apply elem_of_nil_inv. intros e He.
    apply (clean_fields_price self w) in He.
    assert (e ∈ MenuItem_full_clean self w) as Hin
      by (unfold MenuItem_full_clean; apply elem_of_app; by left).
    rewrite Hclean in Hin. by apply not_elem_of_nil in Hin. }
  unfold run_validators, MenuItem.price_validators in Hrun.
  cbn [omap list_omap] in Hrun. rewrite check_min in Hrun.
  destruct (ltb (MenuItem.price self) d0_00); [done|].
  destruct (check_decimal (DecimalValidator 8 2) (MenuItem.price self)); done.
Qed.

Lemma min_zero_coefficient (a : Decimal) :
  ltb a d0_00 = false → 0 ≤ coefficient a.
Proof.
  unfold ltb, compare, scaled. cbn [coefficient exponent d0_00].
  set (k := exponent a - Z.min (exponent a) (-2)).
  assert (0 < 10 ^ k) by (apply Z.pow_pos_nonneg; lia).
  destruct (Z.compare_spec (coefficient a * 10 ^ k) (0 * 10 ^ (-2 - Z.min (exponent a) (-2))));
    intros; try done; nia.
Qed.

(** Eight digits, two of them decimals: the price is a whole number of
    cents below [10 ^ 8]. *)
Lemma digits_8_2 (a : Decimal) :
  check_decimal (DecimalValidator 8 2) a = None →
  -2 ≤ exponent a ∧ Z.abs (scaled (-2) a) < 10 ^ 8.
Proof.
  unfold check_decimal, scaled.
  pose proof (num_digits_bound (coefficient a)) as Hb.
  pose proof (num_digits_pos (coefficient a)) as Hp.
  set (len := num_digits (coefficient a)) in *.
  set (e := exponent a).
  assert (∀ n, 0 ≤ n → n ≤ 8 - (e - -2) → 
               Z.abs (coefficient a) < 10 ^ n → -2 ≤ e →
               Z.abs (coefficient a * 10 ^ (e - -2)) < 10 ^ 8) as Hle.
  { intros n Hn Hn8 Hc He.
    assert (0 < 10 ^ (e - -2)) by (apply Z.pow_pos_nonneg; lia).
    rewrite Z.abs_mul, (Z.abs_eq (10 ^ _)) by lia.
    apply Z.lt_le_trans with (10 ^ n * 10 ^ (e - -2)); [nia|].
    rewrite <-Z.pow_add_r by lia. apply Z.pow_le_mono_r; lia. }
  destruct (Z.leb_spec 0 e) as [He|He].
  - destruct (Z.eqb_spec (coefficient a) 0) as [H0|H0].
    + intros _. split; [lia|]. rewrite H0. simpl. lia.
    + case_ltb; try done. intros _. split; [lia|]. apply (Hle len); lia.
  - destruct (Z.ltb_spec len (Z.abs e)) as [Hl|Hl].
    + case_ltb; try done. intros _. split; [lia|].
      apply (Hle (Z.abs e)); try lia.
      apply Z.lt_trans with (10 ^ len); [done|]. apply Z.pow_lt_mono_r; lia.
    + case_ltb; try done. intros _. split; [lia|]. apply (Hle len); lia.
Qed.

(** ** Rounding to cents *)

Lemma cents_exact (d : Decimal) :
  -2 ≤ exponent d → cents d = Z.abs (scaled (-2) d).
Proof.
  intros He. unfold cents, scaled.
  destruct (Z.leb_spec (-2) (exponent d)); [|lia].
  assert (0 < 10 ^ (exponent d + 2)) by (apply Z.pow_pos_nonneg; lia).
  rewrite Z.abs_mul. replace (exponent d - -2) with (exponent d + 2) by lia.
  by rewrite (Z.abs_eq (10 ^ _)) by lia.
Qed.

Lemma round_half_even_close (n k : Z) :
  0 ≤ n → 0 < k →
  0 ≤ round_half_even n k
  ∧ Z.abs (2 * n - 2 * round_half_even n k * 10 ^ k) ≤ 10 ^ k.
Proof.
  intros Hn Hk. unfold round_half_even.
  assert (0 < 10 ^ k) as Hp by (apply Z.pow_pos_nonneg; lia).
  pose proof (Z.div_mod n (10 ^ k) ltac:(lia)) as Hdm.
  pose proof (Z.mod_pos_bound n (10 ^ k) Hp) as Hr.
  pose proof (Z.div_pos n (10 ^ k) Hn Hp) as Hq.
  set (p := 10 ^ k) in *. set (q := n / p) in *. set (r := n mod p) in *.
  clearbody p q r. subst n.
  case_ltb; [| |destruct (Z.even q)]; split; lia.
Qed.

Lemma cents_nonneg (d : Decimal) : 0 ≤ cents d.
Proof.
  unfold cents. destruct (Z.leb_spec (-2) (exponent d)).
  - assert (0 < 10 ^ (exponent d + 2)) by (apply Z.pow_pos_nonneg; lia). nia.
  - apply round_half_even_close; lia.
Qed.

Lemma value_cents_exact (d : Decimal) :
  -2 ≤ exponent d → 0 ≤ coefficient d →
  (value d * 100 == inject_Z (cents d))%Q.
Proof.
  intros He Hc. rewrite cents_exact by done.
  rewrite (value_scaled 2 d) by lia.
  apply inject_Z_injective. unfold scaled.
  assert (0 < 10 ^ (exponent d - -2)) by (apply Z.pow_pos_nonneg; lia).
  rewrite Z.abs_eq; [done|nia].
Qed.



(** ** The digits of a number *)

Lemma string_of_uint_no_point (d : Corelib.Init.Decimal.uint) :
  "."%char ∉ String.list_ascii_of_string (NilEmpty.string_of_uint d).
Proof.
  induction d; cbn [NilEmpty.string_of_uint String.list_ascii_of_string];
    [apply not_elem_of_nil|..];
    (apply not_elem_of_cons; split; [discriminate|done]).
Qed.

Lemma digits_inj (m n : Z) : 0 ≤ m → 0 ≤ n → digits m = digits n → m = n.
Proof.
  intros Hm Hn Heq. unfold digits in Heq.
  apply (f_equal NilEmpty.uint_of_string) in Heq.
  rewrite !NilEmpty.usu in Heq. injection Heq as Heq.
  apply DecimalN.Unsigned.to_uint_inj in Heq. lia.
Qed.

Lemma digit_inj (m n : Z) : 0 ≤ m < 10 → 0 ≤ n < 10 → digit m = digit n → m = n.
Proof.
  intros Hm Hn Heq. unfold digit in Heq.
  apply (f_equal N_of_ascii) in Heq.
  rewrite !N_ascii_embedding in Heq by lia. lia.
Qed.

(** The text of an amount that is not negative determines its cents. *)
Lemma format_2f_inj (a b : Decimal) :
  0 ≤ coefficient a → 0 ≤ coefficient b →
  format_2f a = format_2f b → cents a = cents b.
Proof.
  intros Ha Hb. unfold format_2f.
  pose proof (cents_nonneg a) as Hca. pose proof (cents_nonneg b) as Hcb.
  set (x := cents a) in *. set (y := cents b) in *.
  destruct (Z.ltb_spec (coefficient a) 0); [lia|].
  destruct (Z.ltb_spec (coefficient b) 0); [lia|].
  change ("" +:+ ?s) with s. intros Heq.
  apply (f_equal (Py.cut ".")) in Heq.
  rewrite !cut_app in Heq by apply string_of_uint_no_point.
  injection Heq as Hwhole Htens Hunits.
  apply digits_inj in Hwhole; [|by apply Z.div_pos..].
  apply digit_inj in Htens; [|by apply Z.mod_pos_bound..].
  apply digit_inj in Hunits; [|by apply Z.mod_pos_bound..].
  rewrite (Z.div_mod x 100), (Z.div_mod y 100) by lia.
  rewrite Hwhole. f_equal.
  rewrite <-(Z.mod_mod_divide x 100 10), <-(Z.mod_mod_divide y 100 10)
    in Hunits by (by exists 10).
  assert (∀ z, 0 ≤ z → z mod 100 = 10 * (z / 10 mod 10) + z mod 100 mod 10) as Hsplit.
  { intros z Hz. rewrite (Z.mod_mod_divide z 100 10) by (by exists 10).
    change 100 with (10 * 10). rewrite Z.rem_mul_r by lia. lia. }
  rewrite (Hsplit x), (Hsplit y) by done. lia.
Qed.

(** ** The currency *)

Lemma clean_currency (self : MenuItem.t) (w : World) :
  MenuItem_full_clean self w = [] → MenuItem.currency self ∈ ["IRR"; "USD"].
Proof.
  unfold MenuItem_full_clean, MenuItem_clean_fields. intros Hclean.
  apply app_eq_nil in Hclean as [Hclean _].
  do 5 apply app_eq_nil in Hclean as [_ Hclean].
  apply app_eq_nil in Hclean as [Hcur _].
  destruct (decide (MenuItem.currency self = "")); [done|].
  apply app_eq_nil in Hcur as [_ Hcur].
  by destruct (decide (MenuItem.currency self ∈ ["IRR"; "USD"])).
Qed.

Lemma symbol_app_inv (s x y : string) : s +:+ x = s +:+ y → x = y.
Proof.
  induction s as [|c s IH]; [done|]. rewrite !app_cons. intros [= Heq]. by apply IH.
Qed.

(** X20: a price that [full_clean] accepts is at least 0 and below
    1,000,000 (eight digits, two of them decimals, and [MinValueValidator]
    at 0.00). *)
Theorem accepted_price_range (self : MenuItem.t) (w : World) :
  MenuItem_full_clean self w = [] →
  (0 <= value (MenuItem.price self))%Q ∧ (value (MenuItem.price self) < 1000000)%Q.
Proof.
  intros Hclean. destruct (clean_price self w Hclean) as [Hmin Hdigits].
  pose proof (min_zero_coefficient _ Hmin) as Hc.
  destruct (digits_8_2 _ Hdigits) as [He Hbound].
  split.
  - apply ltb_value_false in Hmin. by rewrite value_d0_00 in Hmin.
  - apply (Qmult_lt_r _ _ 100); [done|].
    rewrite value_cents_exact, cents_exact by done.
    change (1000000 * 100)%Q with (inject_Z (10 ^ 8)). by rewrite <-Zlt_Qlt.
Qed.

Lemma accepted_price_range_witness :
  (0 <= value (MenuItem.price Fixtures.espresso))%Q
  ∧ (value (MenuItem.price Fixtures.espresso) < 1000000)%Q.
Proof. apply (accepted_price_range Fixtures.espresso Fixtures.shop). reflexivity. Defined.


(** X22: two items that [full_clean] accepts have the same
    [formatted_price] only if they have the same currency and the same
    price. *)
Theorem formatted_price_faithful (a b : MenuItem.t) (w : World) :
  MenuItem_full_clean a w = [] → MenuItem_full_clean b w = [] →
  formatted_price a = formatted_price b →
  MenuItem.currency a = MenuItem.currency b
  ∧ (value (MenuItem.price a) == value (MenuItem.price b))%Q.
Proof.
  intros Ha Hb Heq.
  destruct (clean_price a w Ha) as [Hmina Hda], (clean_price b w Hb) as [Hminb Hdb].
  apply min_zero_coefficient in Hmina, Hminb.
  apply digits_8_2 in Hda as [Hea _], Hdb as [Heb _].
  assert (MenuItem.currency a = MenuItem.currency b
          ∧ format_2f (MenuItem.price a) = format_2f (MenuItem.price b)) as [Hcur Hfmt].
  { pose proof (clean_currency a w Ha) as Hca. pose proof (clean_currency b w Hb) as Hcb.
    unfold formatted_price, MenuItem.currency_symbol in Heq.
    apply elem_of_cons in Hca as [Hca|Hca]; [|apply list_elem_of_singleton in Hca];
      (apply elem_of_cons in Hcb as [Hcb|Hcb]; [|apply list_elem_of_singleton in Hcb]);
      rewrite Hca, Hcb in Heq |- *; cbn [decide] in Heq;
      try discriminate Heq; split; try done; by apply symbol_app_inv in Heq. }
  split; [done|].
  apply format_2f_inj in Hfmt; [|done..].
  apply (Qmult_inj_r _ _ 100); [done|].
  by rewrite !value_cents_exact, Hfmt by done.
Qed.

Lemma formatted_price_faithful_witness :
  MenuItem.currency Fixtures.tart
  = MenuItem.currency pie
  ∧ (value (MenuItem.price Fixtures.tart)
     == value (MenuItem.price pie))%Q.
Proof.
  apply (formatted_price_faithful Fixtures.tart pie Fixtures.shop); reflexivity.
Defined.

(** What the prices of the fixtures look like. *)
Example formatted_prices :
  formatted_price Fixtures.espresso = "$3.50"
  ∧ format_2f {| coefficient := 12505; exponent := -3 |} = "12.50"
  ∧ format_2f {| coefficient := 12515; exponent := -3 |} = "12.52"
  ∧ format_2f {| coefficient := -1; exponent := -3 |} = "-0.00"
  ∧ format_2f {| coefficient := 3; exponent := 2 |} = "300.00".
Proof. repeat split. Qed.

End Prices.
